(** * spaceMigration: copying a Confluence space from one cloud site to another

    A shallow embedding of [spaceMigration.py] and the properties of its
    migration engine: the retrying transport, the parent-first ordering, the
    lookup of existing destination pages, the conflict policy and the
    per-page copy of labels and attachments.

    Conventions of the embedding.
    - JSON objects are read through the keys the program reads.  A value that
      is present has the type the program's annotations give it (ids, titles
      and links are strings, a version number is an integer); [None] stands
      for a key that is absent (or null where the program writes [or]).
      Subscripting an absent key raises [KeyError], [.get] falls back to its
      default.  An object is never the empty object, so [if existing:] tests
      against [None].
    - All remote I/O goes through [sess.request]; the remote services are an
      arbitrary deterministic [World] answering each request.  Every request
      sent, every [time.sleep] and every [print] is recorded in a trace.
    - Durations are exact rationals.
    - [while] loops over server-driven pagination take fuel; running out of
      fuel is the separate outcome [Diverge], never a result. *)

From Stdlib Require Import Ascii String QArith Qpower.
From stdpp Require Import gmap strings list sorting pretty.

Open Scope string_scope.
Open Scope list_scope.
Open Scope Z_scope.

(** ** Strings of the standard library used by the program *)

(** [s.rstrip("/")] *)
Fixpoint rstrip_slash (s : string) : string :=
  match s with
  | EmptyString => EmptyString
  | String c s' =>
      let r := rstrip_slash s' in
      if Ascii.eqb c "/"%char && String.eqb r "" then "" else String c r
  end.

Definition hex_digit (n : N) : Ascii.ascii :=
  match String.get (N.to_nat n) "0123456789ABCDEF" with
  | Some c => c
  | None => "0"%char
  end.

(** The bytes [urllib.parse.quote] leaves alone: letters, digits, [_.-~] and
    the default safe character [/]. *)
Definition quote_safe (c : Ascii.ascii) : bool :=
  let n := Ascii.N_of_ascii c in
  ((65 <=? n) && (n <=? 90) || (97 <=? n) && (n <=? 122) ||
   (48 <=? n) && (n <=? 57))%N
  || Ascii.eqb c "_"%char || Ascii.eqb c "."%char || Ascii.eqb c "-"%char
  || Ascii.eqb c "~"%char || Ascii.eqb c "/"%char.

(** [urllib.parse.quote(s)] on the UTF-8 bytes of [s] *)
Fixpoint quote (s : string) : string :=
  match s with
  | EmptyString => EmptyString
  | String c s' =>
      if quote_safe c then String c (quote s')
      else
        let n := Ascii.N_of_ascii c in
        String "%"%char (String (hex_digit (n / 16)) (String (hex_digit (n mod 16)) (quote s')))
  end.

(** Truthiness of an optional string: [None] and [""] are falsy. *)
Definition truthy (o : option string) : bool :=
  match o with
  | Some s => negb (String.eqb s "")
  | None => false
  end.

(** [x or None] for [x : str | None] *)
Definition or_None (o : option string) : option string :=
  if truthy o then o else None.

(** ** Configuration (the module-level constants) *)

Record config := {
  SRC_BASE_URL : string;
  SRC_SPACE_KEY : string;
  SRC_USERNAME : string;
  SRC_API_TOKEN : string;
  DST_BASE_URL : string;
  DST_SPACE_KEY : string;
  DST_USERNAME : string;
  DST_API_TOKEN : string;
  COPY_ATTACHMENTS : bool;
  COPY_LABELS : bool;
  ON_TITLE_CONFLICT : string;
  PAGE_LIMIT : Z;
  RETRY_MAX : Z;
  RETRY_BASE_WAIT : Q;
  TIMEOUT_S : Z
}.

(** The values the script ships with. *)
Definition shipped_config : config := {|
  SRC_BASE_URL := "<source_confluence_space_url>";
  SRC_SPACE_KEY := "<source_confluence_space_key>";
  SRC_USERNAME := "<your_email>";
  SRC_API_TOKEN := "<your_PAT_token>";
  DST_BASE_URL := "<destination_confluence_space_url>";
  DST_SPACE_KEY := "<destination_confluence_space_key>";
  DST_USERNAME := "<your_email>";
  DST_API_TOKEN := "<your_PAT_token>";
  COPY_ATTACHMENTS := true;
  COPY_LABELS := true;
  ON_TITLE_CONFLICT := "update";
  PAGE_LIMIT := 200;
  RETRY_MAX := 6;
  RETRY_BASE_WAIT := 2;
  TIMEOUT_S := 60
|}.

(** ** JSON documents, through the keys the program reads *)

(** An element of an ["ancestors"] array. *)
Record ancestor := { anc_id : option string (* "id" *) }.

(** A JSON object of the content API: a page, an attachment or a label. *)
Record entry := {
  e_id : option string;                   (* "id" *)
  e_title : option string;                (* "title" *)
  e_storage : option string;              (* "body"."storage"."value" *)
  e_ancestors : option (list ancestor);   (* "ancestors" *)
  e_version : option Z;                   (* "version"."number" *)
  e_download : option string;             (* "_links"."download" *)
  e_prefix : option string;               (* "prefix" *)
  e_name : option string                  (* "name" *)
}.

(** What [r.json()] returns: the object itself and its listing keys. *)
Record document := {
  d_entry : entry;
  d_results : option (list entry);        (* "results" *)
  d_next : option string;                 (* "_links"."next" *)
  d_base : option string                  (* "_links"."base" *)
}.

Record response := {
  status_code : Z;
  retry_after : option string;            (* r.headers.get("Retry-After") *)
  json : option document;                 (* None: r.json() raises *)
  content : list Ascii.ascii                    (* r.content *)
}.

(** ** Requests *)

Record session := {
  auth : string * string;
  headers : list (string * string)
}.

Definition _session (user token : string) : session :=
  {| auth := (user, token); headers := [("Accept", "application/json")] |}.

(** The JSON body of a page write. *)
Record page_body := {
  b_id : option string;
  b_type : string;
  b_title : string;
  b_space_key : string;
  b_storage_value : string;
  b_storage_representation : string;
  b_ancestors : option (list string);     (* [{"id": ...}] *)
  b_version_number : option Z
}.

(** The keyword arguments passed on to [sess.request]. *)
Inductive kwargs :=
| KwNone
| KwStream
| KwJsonPage (body : page_body) (hdrs : list (string * string))
| KwJsonLabels (payload : list (string * string)) (hdrs : list (string * string))
| KwFiles (filename : string) (data : list Ascii.ascii) (mime : string)
          (hdrs : list (string * string)).

Record request := {
  req_sess : session;
  req_method : string;
  req_url : string;
  req_timeout : Z;
  req_kw : kwargs
}.

(** One call of [sess.request]: a response, or a [requests.RequestException]. *)
Inductive attempt :=
| Response (r : response)
| Fault (e : string).

(** ** Effects *)

Inductive event :=
| Sent (r : request)
| Slept (seconds : Q)
| Printed (line : string).

Inductive exn :=
| RequestException (e : string)
| HTTPError (r : response)
| JSONDecodeError
| ValueError
| KeyError (k : string)
| UnboundLocalError (v : string).

Inductive outcome (A : Type) :=
| Ok (a : A)
| Raise (e : exn)
| Diverge.
Arguments Ok {A} a.
Arguments Raise {A} e.
Arguments Diverge {A}.

(** ** Hierarchy sorter *)

(** [p.get("ancestors", []) or []] *)
Definition ancestors_of (p : entry) : list ancestor := default [] (e_ancestors p).

(** The local function [depth] of [sort_pages_parent_first] *)
Definition depth (p : entry) : nat := length (ancestors_of p).

(** The builtin [sorted(l, key=key)] is a stable sort; on a list there is one
    stable ordering by key, computed here by insertion from the right. *)
Fixpoint insert_by {A} (key : A -> nat) (x : A) (l : list A) : list A :=
  match l with
  | [] => [x]
  | y :: l' =>
      if (key x <=? key y)%nat then x :: y :: l' else y :: insert_by key x l'
  end.

Fixpoint sorted {A} (key : A -> nat) (l : list A) : list A :=
  match l with
  | [] => []
  | x :: l' => insert_by key x (sorted key l')
  end.

Definition sort_pages_parent_first (pages : list entry) : list entry :=
  sorted depth pages.

(** The id of the immediate ancestor of [p], when it has one:
    [ancs[-1]["id"]] where it is defined. *)
Definition direct_parent (p : entry) : option string :=
  last (ancestors_of p) ≫= anc_id.

(** [p] with its ancestors forgotten: the same page as a root-level page. *)
Definition as_root (p : entry) : entry :=
  {| e_id := e_id p; e_title := e_title p; e_storage := e_storage p;
     e_ancestors := None; e_version := e_version p;
     e_download := e_download p; e_prefix := e_prefix p; e_name := e_name p |}.

(** ** A scripted remote, to run the program on concrete exchanges *)

(** The remote as the list of its answers still to come, whatever is asked;
    when the list is used up the connection fails. *)
Definition script := list attempt.

Definition play (w : script) (_ : request) : attempt * script :=
  match w with
  | [] => (Fault "connection refused", [])
  | a :: w' => (a, w')
  end.

Fixpoint digits_value (s : string) (acc : N) : option N :=
  match s with
  | EmptyString => Some acc
  | String c s' =>
      let n := Ascii.N_of_ascii c in
      if ((48 <=? n) && (n <=? 57))%N then digits_value s' (acc * 10 + (n - 48))%N
      else None
  end.

(** [float] on the strings used below: it agrees with Python's [float] on a
    string of decimal digits (a [Retry-After] in seconds) and on every string
    [float] rejects. *)
Definition float_of_digits (s : string) : option Q :=
  match s with
  | EmptyString => None
  | _ => (fun n => inject_Z (Z.of_N n)) <$> digits_value s 0
  end.

Definition plain_response (status : Z) (ra : option string) : response :=
  {| status_code := status; retry_after := ra; json := None; content := [] |}.

Section Engine.

(** The remote services and the run-time library. *)
Variable World : Type.
Variable sess_request : World -> request -> attempt * World.
(** [float(s)]: the number [s] denotes, [None] when [float] raises (or gives
    no finite number). *)
Variable py_float : string -> option Q.
Variable cfg : config.

Record state := { world : World; trace : list event }.

Definition M (A : Type) : Type := state -> outcome A * state.

Definition ret {A} (a : A) : M A := fun s => (Ok a, s).

Definition raise {A} (e : exn) : M A := fun s => (Raise e, s).

Definition diverge {A} : M A := fun s => (Diverge, s).

Definition bind {A B} (m : M A) (k : A -> M B) : M B :=
  fun s =>
    match m s with
    | (Ok a, s') => k a s'
    | (Raise e, s') => (Raise e, s')
    | (Diverge, s') => (Diverge, s')
    end.

#[local] Instance M_ret : MRet M := @ret.
#[local] Instance M_bind : MBind M := fun A B k m => bind m k.

Definition tell (ev : event) : M unit :=
  fun s => (Ok tt, {| world := world s; trace := trace s ++ [ev] |}).

(** [sess.request(method, url, timeout=TIMEOUT_S, **kw)] *)
Definition send (req : request) : M attempt :=
  fun s =>
    let (a, w) := sess_request (world s) req in
    (Ok a, {| world := w; trace := trace s ++ [Sent req] |}).

(** [time.sleep(wait)]: a negative length is a [ValueError]. *)
Definition time_sleep (wait : Q) : M unit :=
  if Qle_bool 0 wait then tell (Slept wait) else raise ValueError.

Definition print (line : string) : M unit := tell (Printed line).

(** [d[k]] on an object whose key [k] reads [o] *)
Definition subscript {A} (k : string) (o : option A) : M A :=
  match o with
  | Some a => ret a
  | None => raise (KeyError k)
  end.

(** ** HTTP helpers *)

(** [RETRY_BASE_WAIT * (2 ** (attempt - 1))] *)
Definition backoff (attempt : Z) : Q :=
  (RETRY_BASE_WAIT cfg * 2 ^ (attempt - 1))%Q.

(** [float(ra) if ra else RETRY_BASE_WAIT * (2 ** (attempt - 1))] *)
Definition rate_limit_wait (ra : option string) (attempt : Z) : M Q :=
  match ra with
  | Some s =>
      if truthy ra then
        match py_float s with
        | Some q => ret q
        | None => raise ValueError
        end
      else ret (backoff attempt)
  | None => ret (backoff attempt)
  end.

(** The body of the [for attempt in range(1, RETRY_MAX + 1)] loop, over the
    attempts still to come; [r] is the variable [r], unbound until a request
    has returned. *)
Fixpoint retry_loop (attempts : list Z) (r : option response) (req : request)
  : M response :=
  match attempts with
  | [] =>
      match r with
      | Some r => ret r
      | None => raise (UnboundLocalError "r")
      end
  | attempt :: rest =>
      a ← send req;
      match a with
      | Fault e =>
          if RETRY_MAX cfg <=? attempt then raise (RequestException e)
          else time_sleep (backoff attempt) ;; retry_loop rest r req
      | Response r' =>
          if status_code r' =? 429 then
            wait ← rate_limit_wait (retry_after r') attempt;
            time_sleep wait ;;
            retry_loop rest (Some r') req
          else if (500 <=? status_code r') && (status_code r' <? 600) then
            if RETRY_MAX cfg <=? attempt then ret r'
            else time_sleep (backoff attempt) ;; retry_loop rest (Some r') req
          else ret r'
      end
  end.

(** The call [sess.request(method, url, timeout=TIMEOUT_S, **kw)] *)
Definition the_request (sess : session) (method url : string) (kw : kwargs)
  : request :=
  {| req_sess := sess; req_method := method; req_url := url;
     req_timeout := TIMEOUT_S cfg; req_kw := kw |}.

Definition _req_with_retry (sess : session) (method url : string) (kw : kwargs)
  : M response :=
  retry_loop (seqZ 1 (RETRY_MAX cfg)) None (the_request sess method url kw).

(** [r.raise_for_status()] *)
Definition raise_for_status (r : response) : M unit :=
  if (400 <=? status_code r) && (status_code r <? 600) then raise (HTTPError r)
  else ret tt.

(** [r.json()] *)
Definition json_of (r : response) : M document :=
  match json r with
  | Some d => ret d
  | None => raise JSONDecodeError
  end.

(** [for x in l: acc = body(x, acc)] *)
Fixpoint for_each {A B} (l : list B) (body : B -> A -> M A) (acc : A) : M A :=
  match l with
  | [] => ret acc
  | x :: l' => acc' ← body x acc; for_each l' body acc'
  end.

(** The generator [_paged_get(sess, url)] driven by a [for] loop whose body
    is [body]: the body runs on each item as it is yielded, before the next
    page is requested. *)
Fixpoint _paged_get {A} (fuel : nat) (sess : session) (next_url : string)
    (body : entry -> A -> M A) (acc : A) : M A :=
  if String.eqb next_url "" then ret acc
  else
    match fuel with
    | O => diverge
    | S fuel' =>
        r ← _req_with_retry sess "GET" next_url KwNone;
        raise_for_status r;;
        data ← json_of r;
        acc' ← for_each (default [] (d_results data)) body acc;
        if truthy (d_next data) then
          let base := default "" (d_base data) in
          _paged_get fuel' sess (rstrip_slash base +:+ default "" (d_next data))
            body acc'
        else ret acc'
    end.

(** ** Core logic *)

Definition fetch_all_pages_from_space (fuel : nat) (src_sess : session)
  : M (list entry) :=
  let q :=
    rstrip_slash (SRC_BASE_URL cfg) +:+ "/rest/api/content"
    +:+ "?type=page&spaceKey=" +:+ quote (SRC_SPACE_KEY cfg)
    +:+ "&expand=body.storage,ancestors,version"
    +:+ "&limit=" +:+ pretty (PAGE_LIMIT cfg) in
  _paged_get fuel src_sess q (fun item pages => ret (pages ++ [item])) [].

(** [ancs[-1]["id"] if ancs else None] *)
Definition last_ancestor_id (ancs : list ancestor) : M (option string) :=
  match last ancs with
  | Some a => i ← subscript "id" (anc_id a); ret (Some i)
  | None => ret None
  end.

(** The scan of the candidates in [find_dest_page_by_title] *)
Fixpoint scan_candidates (results : list entry) (parent_id : option string)
  : M (option entry) :=
  match results with
  | [] => ret None
  | p :: rest =>
      direct_parent ← last_ancestor_id (ancestors_of p);
      if bool_decide (or_None parent_id = or_None direct_parent) then ret (Some p)
      else scan_candidates rest parent_id
  end.

Definition find_dest_url (title : string) : string :=
  rstrip_slash (DST_BASE_URL cfg) +:+ "/rest/api/content"
  +:+ "?type=page&spaceKey=" +:+ quote (DST_SPACE_KEY cfg)
  +:+ "&title=" +:+ quote title
  +:+ "&expand=ancestors".

Definition find_dest_page_by_title (dst_sess : session) (title : string)
    (parent_id : option string) : M (option entry) :=
  r ← _req_with_retry dst_sess "GET" (find_dest_url title) KwNone;
  if negb (status_code r =? 200) then ret None
  else
    data ← json_of r;
    scan_candidates (default [] (d_results data)) parent_id.

Definition json_headers : list (string * string) :=
  [("Content-Type", "application/json")].

(** The dictionary [body] built by [create_page] *)
Definition create_body (title storage_value : string) (parent_id : option string)
  : page_body :=
  {| b_id := None;
     b_type := "page";
     b_title := title;
     b_space_key := DST_SPACE_KEY cfg;
     b_storage_value := storage_value;
     b_storage_representation := "storage";
     b_ancestors :=
       match parent_id with
       | Some i => if truthy parent_id then Some [i] else None
       | None => None
       end;
     b_version_number := None |}.

Definition create_page (dst_sess : session) (title storage_value : string)
    (parent_id : option string) : M entry :=
  let body := create_body title storage_value parent_id in
  let url := rstrip_slash (DST_BASE_URL cfg) +:+ "/rest/api/content" in
  r ← _req_with_retry dst_sess "POST" url (KwJsonPage body json_headers);
  raise_for_status r;;
  d ← json_of r;
  ret (d_entry d).

(** The dictionary [body] built by [update_page] *)
Definition update_body (page_id title : string) (version_num : Z)
    (new_storage_value : string) : page_body :=
  {| b_id := Some page_id;
     b_type := "page";
     b_title := title;
     b_space_key := DST_SPACE_KEY cfg;
     b_storage_value := new_storage_value;
     b_storage_representation := "storage";
     b_ancestors := None;
     b_version_number := Some (version_num + 1) |}.

Definition update_page (dst_sess : session) (page : entry)
    (new_storage_value : string) : M entry :=
  page_id ← subscript "id" (e_id page);
  let version_num := default 1 (e_version page) in
  title ← subscript "title" (e_title page);
  let body := update_body page_id title version_num new_storage_value in
  let url := rstrip_slash (DST_BASE_URL cfg) +:+ "/rest/api/content/" +:+ page_id in
  r ← _req_with_retry dst_sess "PUT" url (KwJsonPage body json_headers);
  raise_for_status r;;
  d ← json_of r;
  ret (d_entry d).

Definition labels_url (base id : string) : string :=
  rstrip_slash base +:+ "/rest/api/content/" +:+ id +:+ "/label".

(** [[{"prefix": l.get("prefix", "global"), "name": l["name"]}
      for l in labels if "name" in l]] *)
Definition label_payload (labels : list entry) : list (string * string) :=
  omap (fun l => match e_name l with
                 | Some n => Some (default "global" (e_prefix l), n)
                 | None => None
                 end) labels.

Definition copy_labels (src_sess dst_sess : session) (src_id dst_id : string)
  : M unit :=
  if negb (COPY_LABELS cfg) then ret tt
  else
    r ← _req_with_retry src_sess "GET" (labels_url (SRC_BASE_URL cfg) src_id) KwNone;
    if negb (status_code r =? 200) then ret tt
    else
      d ← json_of r;
      let labels := default [] (d_results d) in
      match labels with
      | [] => ret tt
      | _ =>
          _ ← _req_with_retry dst_sess "POST" (labels_url (DST_BASE_URL cfg) dst_id)
                (KwJsonLabels (label_payload labels) json_headers);
          ret tt
      end.

Definition attachments_url (base id : string) : string :=
  rstrip_slash base +:+ "/rest/api/content/" +:+ id +:+ "/child/attachment".

(** The body of the [for att in _paged_get(...)] loop of [copy_attachments] *)
Definition copy_attachment (src_sess dst_sess : session) (dst_id : string)
    (att : entry) (_ : unit) : M unit :=
  let dl_rel := e_download att in
  let filename := default "attachment.bin" (e_title att) in
  if negb (truthy dl_rel) then ret tt
  else
    let dl_url := rstrip_slash (SRC_BASE_URL cfg) +:+ default "" dl_rel in
    dl ← _req_with_retry src_sess "GET" dl_url KwStream;
    if negb (status_code dl =? 200) then ret tt
    else
      _ ← _req_with_retry dst_sess "POST" (attachments_url (DST_BASE_URL cfg) dst_id)
            (KwFiles filename (content dl) "application/octet-stream"
                     [("X-Atlassian-Token", "nocheck")]);
      ret tt.

Definition attachments_list_url (src_id : string) : string :=
  attachments_url (SRC_BASE_URL cfg) src_id +:+ "?limit=" +:+ pretty (PAGE_LIMIT cfg).

Definition copy_attachments (fuel : nat) (src_sess dst_sess : session)
    (src_id dst_id : string) : M unit :=
  if negb (COPY_ATTACHMENTS cfg) then ret tt
  else
    _paged_get fuel src_sess (attachments_list_url src_id)
      (copy_attachment src_sess dst_sess dst_id) tt.

(** [id_map.get(parent_src_id) if parent_src_id else None] *)
Definition resolve_parent (id_map : gmap string string)
    (parent_src_id : option string) : option string :=
  match parent_src_id with
  | Some k => if truthy parent_src_id then id_map !! k else None
  | None => None
  end.

(** The tail of the loop body of [run_copy], below the conflict policy *)
Definition copy_assets (fuel : nat) (src dst : session) (src_id : string)
    (id_map : gmap string string) : M (gmap string string) :=
  dst_id ← subscript src_id (id_map !! src_id);
  (if COPY_LABELS cfg then copy_labels src dst src_id dst_id else ret tt);;
  (if COPY_ATTACHMENTS cfg then copy_attachments fuel src dst src_id dst_id
   else ret tt);;
  ret id_map.

(** The loop body of [run_copy] from the lookup of an existing page on: the
    conflict policy, then the copy of labels and attachments. *)
Definition place_page (fuel : nat) (src dst : session)
    (src_id title storage : string) (parent_dst_id : option string)
    (id_map : gmap string string) : M (gmap string string) :=
  existing ← find_dest_page_by_title dst title parent_dst_id;
  match existing with
  | Some existing =>
      if String.eqb (ON_TITLE_CONFLICT cfg) "skip" then
        print ("SKIP (exists)  " +:+ title);;
        i ← subscript "id" (e_id existing);
        ret (<[src_id := i]> id_map)
      else if String.eqb (ON_TITLE_CONFLICT cfg) "update" then
        print ("UPDATE         " +:+ title);;
        updated ← update_page dst existing storage;
        i ← subscript "id" (e_id updated);
        copy_assets fuel src dst src_id (<[src_id := i]> id_map)
      else
        let title := title +:+ " (copy)" in
        print ("CREATE(+suffix)" +:+ title);;
        created ← create_page dst title storage parent_dst_id;
        i ← subscript "id" (e_id created);
        copy_assets fuel src dst src_id (<[src_id := i]> id_map)
  | None =>
      print ("CREATE         " +:+ title);;
      created ← create_page dst title storage parent_dst_id;
      i ← subscript "id" (e_id created);
      copy_assets fuel src dst src_id (<[src_id := i]> id_map)
  end.

(** One iteration of [for p in pages] in [run_copy]; the result is [id_map]
    as the iteration leaves it. *)
Definition run_copy_page (fuel : nat) (src dst : session) (p : entry)
    (id_map : gmap string string) : M (gmap string string) :=
  src_id ← subscript "id" (e_id p);
  title ← subscript "title" (e_title p);
  let storage := default "" (e_storage p) in
  let ancestors := ancestors_of p in
  parent_src_id ← last_ancestor_id ancestors;
  let parent_dst_id := resolve_parent id_map parent_src_id in
  place_page fuel src dst src_id title storage parent_dst_id id_map.

Definition run_copy (fuel : nat) : M unit :=
  let src := _session (SRC_USERNAME cfg) (SRC_API_TOKEN cfg) in
  let dst := _session (DST_USERNAME cfg) (DST_API_TOKEN cfg) in
  print ("Reading pages from space '" +:+ SRC_SPACE_KEY cfg +:+ "' at "
         +:+ SRC_BASE_URL cfg +:+ " ...");;
  pages ← fetch_all_pages_from_space fuel src;
  match pages with
  | [] => print "No pages found. Nothing to do."
  | _ =>
      let pages := sort_pages_parent_first pages in
      id_map ← for_each pages (run_copy_page fuel src dst) ∅;
      print ("✅ Done. Copied pages: " +:+ pretty (size id_map));;
      print ("Destination space: " +:+ DST_SPACE_KEY cfg +:+ " at "
             +:+ DST_BASE_URL cfg)
  end.

(** ** Reading the trace *)

(** [m] only appends to the trace, and every event it appends satisfies [P]. *)
Definition emits {A} (P : event -> Prop) (m : M A) : Prop :=
  forall s, exists tr, trace (snd (m s)) = trace s ++ tr /\ Forall P tr.

(** A condition on the requests sent; sleeps and prints are free. *)
Definition on_sent (R : request -> Prop) (ev : event) : Prop :=
  match ev with
  | Sent req => R req
  | _ => True
  end.

(** A request that carries no page body. *)
Definition no_page_write (req : request) : Prop :=
  match req_kw req with
  | KwJsonPage _ _ => False
  | _ => True
  end.

(** What a request must satisfy if it carries a page body: the body has the
    markup [storage]; a POST links the page under [parent_id] when that is a
    non-empty id and carries no ancestors otherwise, a PUT never carries
    ancestors. *)
Definition page_write_of (storage : string) (parent_id : option string)
    (req : request) : Prop :=
  forall body hdrs, req_kw req = KwJsonPage body hdrs ->
    b_storage_value body = storage /\
    ((req_method req = "POST" /\
      b_ancestors body = match or_None parent_id with
                         | Some i => Some [i]
                         | None => None
                         end)
     \/ (req_method req = "PUT" /\ b_ancestors body = None)).


(** [m] only appends to the trace, and [ev] is among what it appends. *)
Definition sends {A} (ev : event) (m : M A) : Prop :=
  forall s, exists tr, trace (snd (m s)) = trace s ++ tr /\ ev ∈ tr.

(** ** What the remote answers, and the shape of a retried exchange *)

(** The answers [w] gives to [n] successive sendings of [req]. *)
Fixpoint answers (n : nat) (w : World) (req : request) : list attempt :=
  match n with
  | O => []
  | S n' => let (a, w') := sess_request w req in a :: answers n' w' req
  end.

Fixpoint world_after (n : nat) (w : World) (req : request) : World :=
  match n with
  | O => w
  | S n' => world_after n' (snd (sess_request w req)) req
  end.

(** [req] sent and followed by a sleep, once per wait. *)
Fixpoint retried (req : request) (waits : list Q) : list event :=
  match waits with
  | [] => []
  | w :: ws => Sent req :: Slept w :: retried req ws
  end.



(** ** The retry loop *)

Lemma length_answers n w req : length (answers n w req) = n.
Proof.
  revert w; induction n as [|n IH]; intros w; simpl; [done|].
  destruct (sess_request w req); simpl; by rewrite IH.
Qed.

Lemma backoff_sleeps k :
  (0 <= RETRY_BASE_WAIT cfg)%Q -> Qle_bool 0 (backoff k) = true.
Proof.
  intros Hb. apply Qle_bool_iff, Qmult_le_0_compat; [done|].
  by apply Qpower_0_le.
Qed.

Lemma retry_loop_cons k rest r req s :
  retry_loop (k :: rest) r req s =
  let (a, w) := sess_request (world s) req in
  let s1 := {| world := w; trace := trace s ++ [Sent req] |} in
  match a with
  | Fault e =>
      if RETRY_MAX cfg <=? k then (Raise (RequestException e), s1)
      else (time_sleep (backoff k) ;; retry_loop rest r req) s1
  | Response r' =>
      if status_code r' =? 429 then
        (wait ← rate_limit_wait (retry_after r') k;
         time_sleep wait ;; retry_loop rest (Some r') req) s1
      else if (500 <=? status_code r') && (status_code r' <? 600) then
        if RETRY_MAX cfg <=? k then (Ok r', s1)
        else (time_sleep (backoff k) ;; retry_loop rest (Some r') req) s1
      else (Ok r', s1)
  end.
Proof.
  simpl. unfold mbind at 1, M_bind at 1, bind at 1, send.
  destruct (sess_request (world s) req) as [[r'|e] w]; simpl.
  - destruct (status_code r' =? 429); [done|].
    destruct ((500 <=? status_code r') && (status_code r' <? 600)); [|done].
    by destruct (RETRY_MAX cfg <=? k).
  - by destruct (RETRY_MAX cfg <=? k).
Qed.

Lemma sleep_then {A} (q : Q) (m : M A) s :
  Qle_bool 0 q = true ->
  (time_sleep q ;; m) s = m {| world := world s; trace := trace s ++ [Slept q] |}.
Proof. intros Hq. unfold mbind, M_bind, bind, time_sleep. by rewrite Hq. Qed.


Lemma seqZ_next k (n : nat) :
  seqZ k (Z.of_nat (S n)) = k :: seqZ (k + 1) (Z.of_nat n).
Proof.
  rewrite seqZ_cons by lia. f_equal. f_equal; lia.
Qed.

Ltac answer_head H a w :=
  simpl in H;
  match type of H with
  | context [sess_request ?w0 ?req] =>
      destruct (sess_request w0 req) as [a w] eqn:?; simpl in H;
      injection H as -> H
  end.

(** Answers of the server-fault class on every attempt left: the loop sleeps
    a back-off after each but the last and returns the last answer. *)
Lemma retry_loop_server_faults req : forall rs k r0 s,
  (0 <= RETRY_BASE_WAIT cfg)%Q ->
  rs <> [] ->
  k + Z.of_nat (length rs) = RETRY_MAX cfg + 1 ->
  answers (length rs) (world s) req = Response <$> rs ->
  Forall (fun r => 500 <= status_code r < 600) rs ->
  exists r, last rs = Some r /\
    retry_loop (seqZ k (Z.of_nat (length rs))) r0 req s =
    (Ok r, {| world := world_after (length rs) (world s) req;
              trace := trace s
                ++ retried req (backoff <$> seqZ k (Z.of_nat (pred (length rs))))
                ++ [Sent req] |}).
Proof.
  intros rs. induction rs as [|r rs IH]; intros k r0 s Hb Hne Hk Hans Hall; [done|].
  inversion Hall as [|? ? Hr Hrs]; subst.
  answer_head Hans a w.
  cbn [length]. rewrite seqZ_next, retry_loop_cons, Heqp. cbv beta iota zeta.
  replace (status_code r =? 429) with false by (symmetry; apply Z.eqb_neq; lia).
  replace ((500 <=? status_code r) && (status_code r <? 600)) with true
    by (symmetry; apply andb_true_iff; split; [apply Z.leb_le|apply Z.ltb_lt]; lia).
  destruct rs as [|r2 rs].
  - simpl in Hk. replace (RETRY_MAX cfg <=? k) with true
      by (symmetry; apply Z.leb_le; lia).
    exists r. split; [done|]. simpl. rewrite Heqp. done.
  - replace (RETRY_MAX cfg <=? k) with false
      by (symmetry; apply Z.leb_gt; simpl length in Hk; lia).
    rewrite sleep_then by by apply backoff_sleeps. cbn [world trace].
    destruct (IH (k + 1) (Some r)
                {| world := w; trace := (trace s ++ [Sent req]) ++ [Slept (backoff k)] |})
      as (r' & Hlast & Hrun); try done.
    { simpl length in *. lia. }
    exists r'. split; [by rewrite last_cons_cons|].
    rewrite Hrun. simpl world. f_equal. f_equal.
    + simpl. by rewrite Heqp.
    + cbn [length pred trace]. rewrite seqZ_next. cbn [fmap list_fmap retried app].
      by rewrite <- !app_assoc.
Qed.

(** A connection fault on every attempt left: the loop sleeps a back-off
    after each but the last and raises the last fault. *)
Lemma retry_loop_faults req : forall es k r0 s,
  (0 <= RETRY_BASE_WAIT cfg)%Q ->
  es <> [] ->
  k + Z.of_nat (length es) = RETRY_MAX cfg + 1 ->
  answers (length es) (world s) req = Fault <$> es ->
  exists e, last es = Some e /\
    retry_loop (seqZ k (Z.of_nat (length es))) r0 req s =
    (Raise (RequestException e),
     {| world := world_after (length es) (world s) req;
        trace := trace s
          ++ retried req (backoff <$> seqZ k (Z.of_nat (pred (length es))))
          ++ [Sent req] |}).
Proof.
  intros es. induction es as [|e es IH]; intros k r0 s Hb Hne Hk Hans; [done|].
  answer_head Hans a w.
  cbn [length]. rewrite seqZ_next, retry_loop_cons, Heqp. cbv beta iota zeta.
  destruct es as [|e2 es].
  - simpl in Hk. replace (RETRY_MAX cfg <=? k) with true
      by (symmetry; apply Z.leb_le; lia).
    exists e. split; [done|]. simpl. rewrite Heqp. done.
  - replace (RETRY_MAX cfg <=? k) with false
      by (symmetry; apply Z.leb_gt; simpl length in Hk; lia).
    rewrite sleep_then by by apply backoff_sleeps. cbn [world trace].
    destruct (IH (k + 1) r0
                {| world := w; trace := (trace s ++ [Sent req]) ++ [Slept (backoff k)] |})
      as (e' & Hlast & Hrun); try done.
    { simpl length in *. lia. }
    exists e'. split; [by rewrite last_cons_cons|].
    rewrite Hrun. simpl world. f_equal. f_equal.
    + simpl. by rewrite Heqp.
    + cbn [length pred trace]. rewrite seqZ_next. cbn [fmap list_fmap retried app].
      by rewrite <- !app_assoc.
Qed.



Lemma answers_length_eq {A} n w req (f : A -> attempt) (l : list A) :
  answers n w req = f <$> l -> length l = n.
Proof.
  intros H. apply (f_equal length) in H.
  by rewrite length_answers, length_fmap in H.
Qed.

(** C8. When each of the [RETRY_MAX] attempts is answered by a response of
    the server-fault class (500 to 599), [_req_with_retry] returns the last
    of these responses as it is, without raising; the request was sent
    [RETRY_MAX] times, and after each attempt but the last the program slept
    [RETRY_BASE_WAIT * 2 ** (attempt - 1)] seconds. *)
Theorem server_fault_exhaustion_returns_last_response
    (sess : session) (method url : string) (kw : kwargs) (s : state)
    (rs : list response) :
  1 <= RETRY_MAX cfg ->
  (0 <= RETRY_BASE_WAIT cfg)%Q ->
  answers (Z.to_nat (RETRY_MAX cfg)) (world s) (the_request sess method url kw)
    = Response <$> rs ->
  Forall (fun r => 500 <= status_code r < 600) rs ->
  exists r, last rs = Some r /\
    _req_with_retry sess method url kw s =
    (Ok r,
     {| world := world_after (Z.to_nat (RETRY_MAX cfg)) (world s)
                   (the_request sess method url kw);
        trace := trace s
          ++ retried (the_request sess method url kw)
               ((fun attempt => (RETRY_BASE_WAIT cfg * 2 ^ (attempt - 1))%Q)
                  <$> seqZ 1 (RETRY_MAX cfg - 1))
          ++ [Sent (the_request sess method url kw)] |}).
Proof.
  intros Hn Hb Hans Hall.
  pose proof (answers_length_eq _ _ _ _ _ Hans) as Hlen.
  unfold _req_with_retry. rewrite <- Hlen.
  replace (seqZ 1 (RETRY_MAX cfg)) with (seqZ 1 (Z.of_nat (length rs)))
    by (f_equal; lia).
  replace (RETRY_MAX cfg - 1) with (Z.of_nat (pred (length rs))) by lia.
  change (fun attempt => (RETRY_BASE_WAIT cfg * 2 ^ (attempt - 1))%Q) with backoff.
  apply (retry_loop_server_faults _ rs 1 None s);
    rewrite ?Hlen; try done; try lia.
  destruct rs; [simpl in Hlen; lia|done].
Qed.

(** C9. When each of the [RETRY_MAX] attempts fails with a connection-level
    fault, [_req_with_retry] sleeps the back-off after each attempt but the
    last and raises the fault of the last attempt to its caller. *)
Theorem connection_fault_exhaustion_raises_last_fault
    (sess : session) (method url : string) (kw : kwargs) (s : state)
    (es : list string) :
  1 <= RETRY_MAX cfg ->
  (0 <= RETRY_BASE_WAIT cfg)%Q ->
  answers (Z.to_nat (RETRY_MAX cfg)) (world s) (the_request sess method url kw)
    = Fault <$> es ->
  exists e, last es = Some e /\
    _req_with_retry sess method url kw s =
    (Raise (RequestException e),
     {| world := world_after (Z.to_nat (RETRY_MAX cfg)) (world s)
                   (the_request sess method url kw);
        trace := trace s
          ++ retried (the_request sess method url kw)
               ((fun attempt => (RETRY_BASE_WAIT cfg * 2 ^ (attempt - 1))%Q)
                  <$> seqZ 1 (RETRY_MAX cfg - 1))
          ++ [Sent (the_request sess method url kw)] |}).
Proof.
  intros Hn Hb Hans.
  pose proof (answers_length_eq _ _ _ _ _ Hans) as Hlen.
  unfold _req_with_retry. rewrite <- Hlen.
  replace (seqZ 1 (RETRY_MAX cfg)) with (seqZ 1 (Z.of_nat (length es)))
    by (f_equal; lia).
  replace (RETRY_MAX cfg - 1) with (Z.of_nat (pred (length es))) by lia.
  change (fun attempt => (RETRY_BASE_WAIT cfg * 2 ^ (attempt - 1))%Q) with backoff.
  apply (retry_loop_faults _ es 1 None s);
    rewrite ?Hlen; try done; try lia.
  destruct es; [simpl in Hlen; lia|done].
Qed.


(** ** Monad laws used below *)

Lemma bind_Ok {A B} (m : M A) (k : A -> M B) s a s1 :
  m s = (Ok a, s1) -> (m ≫= k) s = k a s1.
Proof. intros H. unfold mbind, M_bind, bind. by rewrite H. Qed.

Lemma bind_Ok_inv {A B} (m : M A) (k : A -> M B) s b s' :
  (m ≫= k) s = (Ok b, s') ->
  exists a s1, m s = (Ok a, s1) /\ k a s1 = (Ok b, s').
Proof.
  unfold mbind, M_bind, bind. destruct (m s) as [[a|e|] s1]; try done.
  intros H. by exists a, s1.
Qed.

Lemma subscript_Ok_inv {A} k (o : option A) s a s' :
  subscript k o s = (Ok a, s') -> o = Some a /\ s' = s.
Proof. destruct o; simpl; intros H; [|done]. by injection H as -> ->. Qed.

(** ** Identity resolver *)

Lemma last_ancestor_id_pure ancs s :
  last_ancestor_id ancs s =
  (match last ancs with
   | Some a => match anc_id a with Some i => Ok (Some i) | None => Raise (KeyError "id") end
   | None => Ok None
   end, s).
Proof.
  unfold last_ancestor_id. destruct (last ancs) as [a|]; [|done].
  unfold mbind, M_bind, bind. by destruct (anc_id a).
Qed.

Lemma scan_candidates_match results parent_id s p s' :
  scan_candidates results parent_id s = (Ok (Some p), s') ->
  p ∈ results /\ or_None parent_id = or_None (direct_parent p) /\ s' = s.
Proof.
  induction results as [|c rest IH]; simpl; [done|].
  unfold mbind, M_bind, bind. rewrite last_ancestor_id_pure.
  destruct (last (ancestors_of c)) as [a|] eqn:Hlast.
  - destruct (anc_id a) as [i|] eqn:Hid; [|done].
    case_bool_decide as Heq.
    + intros H. injection H as -> ->. split; [left|].
      split; [|done]. unfold direct_parent. rewrite Hlast. simpl. by rewrite Hid.
    + intros H. destruct (IH H) as (? & ? & ?). split; [by right|done].
  - case_bool_decide as Heq.
    + intros H. injection H as -> ->. split; [left|].
      split; [|done]. unfold direct_parent. by rewrite Hlast.
    + intros H. destruct (IH H) as (? & ? & ?). split; [by right|done].
Qed.

Lemma find_dest_match dst title parent_id s p s' :
  find_dest_page_by_title dst title parent_id s = (Ok (Some p), s') ->
  or_None parent_id = or_None (direct_parent p).
Proof.
  unfold find_dest_page_by_title. intros H.
  apply bind_Ok_inv in H as (r & s1 & _ & H).
  destruct (negb (status_code r =? 200)); [done|].
  apply bind_Ok_inv in H as (d & s2 & _ & H).
  by apply scan_candidates_match in H as (_ & ? & _).
Qed.

(** C6. A page returned by [find_dest_page_by_title] has a direct parent
    equal to the caller's [parent_id], an absent and an empty id counting as
    no parent; so two lookups made for different parents never return the
    same page, whatever the titles. *)
Theorem find_dest_matches_on_parent
    (dst : session) (title1 title2 : string) (parent1 parent2 : option string)
    (s1 s2 s1' s2' : state) (p1 p2 : entry) :
  find_dest_page_by_title dst title1 parent1 s1 = (Ok (Some p1), s1') ->
  find_dest_page_by_title dst title2 parent2 s2 = (Ok (Some p2), s2') ->
  or_None (direct_parent p1) = or_None parent1 /\
  or_None (direct_parent p2) = or_None parent2 /\
  (or_None parent1 <> or_None parent2 -> p1 <> p2).
Proof.
  intros H1 H2. apply find_dest_match in H1, H2.
  split; [done|]. split; [done|]. intros Hne ->. congruence.
Qed.

(** C7. When the lookup request comes back with a status outside 200-299,
    [find_dest_page_by_title] returns [None], for every title and parent. *)
Theorem find_dest_non_2xx_is_no_match
    (dst : session) (title : string) (parent_id : option string)
    (s s' : state) (r : response) :
  _req_with_retry dst "GET" (find_dest_url title) KwNone s = (Ok r, s') ->
  ~ (200 <= status_code r < 300) ->
  find_dest_page_by_title dst title parent_id s = (Ok None, s').
Proof.
  intros Hreq Hst. unfold find_dest_page_by_title.
  rewrite (bind_Ok _ _ _ _ _ Hreq).
  replace (status_code r =? 200) with false; [done|].
  symmetry. apply Z.eqb_neq. lia.
Qed.

(** ** Orphaned ancestors *)

(** C5. A page whose immediate ancestor is not a key of [id_map] gets no
    destination parent, and its iteration of the run loop is the iteration of
    the same page taken as a root-level page: the miss raises nothing and a
    page created for it carries no parent. *)
Theorem orphaned_parent_falls_back_to_root
    (fuel : nat) (src dst : session) (p : entry) (id_map : gmap string string)
    (k : string) (s : state) :
  direct_parent p = Some k ->
  id_map !! k = None ->
  resolve_parent id_map (direct_parent p) = None /\
  (forall title storage,
     b_ancestors (create_body title storage
                    (resolve_parent id_map (direct_parent p))) = None) /\
  run_copy_page fuel src dst p id_map s
  = run_copy_page fuel src dst (as_root p) id_map s.
Proof.
  intros Hk Hmiss.
  assert (resolve_parent id_map (Some k) = None) as Hres.
  { unfold resolve_parent. by destruct (truthy (Some k)). }
  rewrite Hk. split; [done|]. split; [by rewrite Hres|].
  unfold run_copy_page, mbind, M_bind, bind.
  change (e_id (as_root p)) with (e_id p).
  change (e_title (as_root p)) with (e_title p).
  change (e_storage (as_root p)) with (e_storage p).
  destruct (subscript "id" (e_id p) s) as [[src_id|?|] s0]; [|done..].
  destruct (subscript "title" (e_title p) s0) as [[title|?|] s1]; [|done..].
  rewrite !last_ancestor_id_pure.
  unfold direct_parent in Hk.
  destruct (last (ancestors_of p)) as [a|]; [|done]. simpl in Hk. rewrite Hk.
  change (last (ancestors_of (as_root p))) with (@None ancestor).
  cbv beta iota. by rewrite Hres.
Qed.

(** ** Rules for [emits] *)

Section Emits.

Context (P : event -> Prop).

Lemma emits_ret {A} (a : A) : emits P (ret a).
Proof. intros s. exists []. by rewrite app_nil_r. Qed.

Lemma emits_raise {A} (e : exn) : emits P (@raise A e).
Proof. intros s. exists []. by rewrite app_nil_r. Qed.

Lemma emits_diverge {A} : emits P (@diverge A).
Proof. intros s. exists []. by rewrite app_nil_r. Qed.

Lemma emits_bind {A B} (m : M A) (k : A -> M B) :
  emits P m -> (forall a, emits P (k a)) -> emits P (m ≫= k).
Proof.
  intros Hm Hk s. unfold mbind, M_bind, bind.
  destruct (Hm s) as (tr1 & Ht1 & HP1).
  destruct (m s) as [[a|e|] s1]; simpl in *; [|by exists tr1..].
  destruct (Hk a s1) as (tr2 & Ht2 & HP2).
  exists (tr1 ++ tr2). rewrite Ht2, Ht1, app_assoc. split; [done|].
  by apply Forall_app.
Qed.

Lemma emits_tell ev : P ev -> emits P (tell ev).
Proof. intros Hev s. exists [ev]. split; [done|]. by constructor. Qed.

Lemma emits_print line : P (Printed line) -> emits P (print line).
Proof. apply emits_tell. Qed.

Lemma emits_send req : P (Sent req) -> emits P (send req).
Proof.
  intros Hev s. exists [Sent req]. unfold send.
  destruct (sess_request (world s) req). split; [done|]. by constructor.
Qed.

Lemma emits_time_sleep q : P (Slept q) -> emits P (time_sleep q).
Proof.
  intros Hq. unfold time_sleep.
  destruct (Qle_bool 0 q); [by apply emits_tell|apply emits_raise].
Qed.

Lemma emits_subscript {A} k (o : option A) : emits P (subscript k o).
Proof. destruct o; [apply emits_ret|apply emits_raise]. Qed.

Lemma emits_raise_for_status r : emits P (raise_for_status r).
Proof.
  unfold raise_for_status.
  destruct (_ && _); [apply emits_raise|apply emits_ret].
Qed.

Lemma emits_json_of r : emits P (json_of r).
Proof. unfold json_of. destruct (json r); [apply emits_ret|apply emits_raise]. Qed.

Lemma emits_last_ancestor_id ancs : emits P (last_ancestor_id ancs).
Proof.
  unfold last_ancestor_id. destruct (last ancs); [|apply emits_ret].
  apply emits_bind; [apply emits_subscript|intros; apply emits_ret].
Qed.

Lemma emits_for_each {A B} (l : list B) (body : B -> A -> M A) acc :
  (forall x a, emits P (body x a)) -> emits P (for_each l body acc).
Proof.
  intros Hbody. revert acc. induction l as [|x l IH]; intros acc; simpl.
  - apply emits_ret.
  - apply emits_bind; [apply Hbody|apply IH].
Qed.

End Emits.

Lemma emits_mono {A} (P Q : event -> Prop) (m : M A) :
  (forall ev, P ev -> Q ev) -> emits P m -> emits Q m.
Proof.
  intros HPQ Hm s. destruct (Hm s) as (tr & Ht & HP).
  exists tr. split; [done|]. by eapply Forall_impl.
Qed.

(** Splits a goal [emits P m] along the structure of [m]. *)
Ltac emits_step :=
  first
    [ apply emits_ret | apply emits_raise | apply emits_diverge
    | apply emits_subscript | apply emits_raise_for_status
    | apply emits_json_of | apply emits_last_ancestor_id
    | apply emits_print; [exact I]
    | apply emits_time_sleep; [exact I]
    | apply emits_bind; [|intros ?]
    | match goal with
      | |- emits _ (if ?b then _ else _) => destruct b
      | |- emits _ (match ?x with _ => _ end) => destruct x
      end ].

Lemma emits_retry_loop (R : request -> Prop) attempts r req :
  R req -> emits (on_sent R) (retry_loop attempts r req).
Proof.
  intros HR. revert r. induction attempts as [|k rest IH]; intros r; simpl.
  - repeat emits_step.
  - apply emits_bind; [by apply emits_send|intros a].
    unfold rate_limit_wait. repeat first [apply IH | emits_step].
Qed.

Lemma emits_req (R : request -> Prop) sess method url kw :
  R (the_request sess method url kw) ->
  emits (on_sent R) (_req_with_retry sess method url kw).
Proof. apply emits_retry_loop. Qed.

Lemma emits_paged_get {A} (R : request -> Prop) fuel sess
    (body : entry -> A -> M A) :
  (forall url, R (the_request sess "GET" url KwNone)) ->
  (forall x a, emits (on_sent R) (body x a)) ->
  forall url acc, emits (on_sent R) (_paged_get fuel sess url body acc).
Proof.
  intros HR Hbody. induction fuel as [|fuel IH]; intros url acc; simpl.
  - repeat emits_step.
  - destruct (String.eqb url ""); [apply emits_ret|].
    apply emits_bind; [by apply emits_req|intros r].
    apply emits_bind; [apply emits_raise_for_status|intros _].
    apply emits_bind; [apply emits_json_of|intros d].
    apply emits_bind; [by apply emits_for_each|intros acc'].
    destruct (truthy (d_next d)); [apply IH|apply emits_ret].
Qed.

Lemma emits_scan_candidates P results parent_id :
  emits P (scan_candidates results parent_id).
Proof.
  induction results as [|p rest IH]; simpl; [apply emits_ret|].
  apply emits_bind; [apply emits_last_ancestor_id|intros dp].
  destruct (bool_decide _); [apply emits_ret|apply IH].
Qed.

Lemma emits_find_dest dst title parent_id :
  emits (on_sent no_page_write) (find_dest_page_by_title dst title parent_id).
Proof.
  unfold find_dest_page_by_title.
  apply emits_bind; [by apply emits_req|intros r].
  destruct (negb _); [apply emits_ret|].
  apply emits_bind; [apply emits_json_of|intros d].
  apply emits_scan_candidates.
Qed.

Lemma emits_copy_labels src dst src_id dst_id :
  emits (on_sent no_page_write) (copy_labels src dst src_id dst_id).
Proof.
  unfold copy_labels.
  repeat first [by apply emits_req | emits_step].
Qed.

Lemma emits_copy_attachments fuel src dst src_id dst_id :
  emits (on_sent no_page_write) (copy_attachments fuel src dst src_id dst_id).
Proof.
  unfold copy_attachments. destruct (negb _); [apply emits_ret|].
  apply emits_paged_get; [done|]. intros att []. unfold copy_attachment.
  repeat first [by apply emits_req | emits_step].
Qed.

Lemma emits_copy_assets fuel src dst src_id id_map :
  emits (on_sent no_page_write) (copy_assets fuel src dst src_id id_map).
Proof.
  unfold copy_assets.
  repeat first [apply emits_copy_labels | apply emits_copy_attachments | emits_step].
Qed.

Lemma no_page_write_on_sent (R : request -> Prop) :
  (forall req, no_page_write req -> R req) ->
  forall ev, on_sent no_page_write ev -> on_sent R ev.
Proof. intros HR [req| |]; simpl; auto. Qed.

Lemma no_page_write_page_write_of storage parent_id req :
  no_page_write req -> page_write_of storage parent_id req.
Proof. unfold no_page_write. intros H body hdrs Hkw. by rewrite Hkw in H. Qed.


(** ** The two page writes *)

Lemma emits_create_page dst title storage parent_id :
  emits (on_sent (page_write_of storage parent_id))
    (create_page dst title storage parent_id).
Proof.
  unfold create_page.
  apply emits_bind; [apply emits_req|intros r; repeat emits_step].
  intros body hdrs Hkw. simpl in Hkw. injection Hkw as <- <-.
  split; [done|]. left. split; [done|]. simpl. unfold or_None.
  destruct parent_id as [i|]; [|done]. by destruct (truthy (Some i)).
Qed.

Lemma emits_bind_subscript {A B} P key (o : option A) (k : A -> M B) :
  (forall a, o = Some a -> emits P (k a)) -> emits P (subscript key o ≫= k).
Proof.
  intros Hk. destruct o as [a|].
  - intros s. rewrite (bind_Ok _ _ s a s) by done. by apply Hk.
  - intros s. exists []. by rewrite app_nil_r.
Qed.

Lemma emits_update_page (R : request -> Prop) dst page storage :
  (forall page_id title,
     e_id page = Some page_id -> e_title page = Some title ->
     R (the_request dst "PUT"
          (rstrip_slash (DST_BASE_URL cfg) +:+ "/rest/api/content/" +:+ page_id)
          (KwJsonPage
             (update_body page_id title (default 1 (e_version page)) storage)
             json_headers))) ->
  emits (on_sent R) (update_page dst page storage).
Proof.
  intros HR. unfold update_page.
  apply emits_bind_subscript. intros page_id Hid.
  apply emits_bind_subscript. intros title Htitle.
  apply emits_bind; [apply emits_req; by apply HR|intros r; repeat emits_step].
Qed.

Lemma update_page_write_of dst page storage parent_id :
  emits (on_sent (page_write_of storage parent_id))
    (update_page dst page storage).
Proof.
  apply emits_update_page. intros page_id title _ _ body hdrs Hkw.
  simpl in Hkw. injection Hkw as <- <-. split; [done|]. by right.
Qed.


Lemma place_page_write_of fuel src dst src_id title storage parent_id id_map :
  emits (on_sent (page_write_of storage parent_id))
    (place_page fuel src dst src_id title storage parent_id id_map).
Proof.
  pose proof (no_page_write_on_sent _
                (no_page_write_page_write_of storage parent_id)) as Hweak.
  unfold place_page.
  apply emits_bind; [eapply emits_mono, emits_find_dest; done|intros existing].
  repeat first
    [ apply emits_create_page | apply update_page_write_of
    | eapply emits_mono, emits_copy_assets; done
    | emits_step ].
Qed.

(** C3 (amended). In one iteration of the run loop, every request that
    carries a page body carries the source page's markup as it was read
    ([""] when the page has none).  A creation (POST) links the page under
    the resolved destination parent when there is one and sends no parent
    otherwise; an update (PUT) never sends a parent. *)
Theorem page_writes_send_source_body_and_create_links_parent
    (fuel : nat) (src dst : session) (p : entry) (id_map : gmap string string)
    (s : state) :
  exists tr,
    trace (snd (run_copy_page fuel src dst p id_map s)) = trace s ++ tr /\
    forall req, Sent req ∈ tr ->
      page_write_of (default "" (e_storage p))
        (resolve_parent id_map (direct_parent p)) req.
Proof.
  assert (emits (on_sent (page_write_of (default "" (e_storage p))
                            (resolve_parent id_map (direct_parent p))))
            (run_copy_page fuel src dst p id_map)) as Hrun.
  { unfold run_copy_page.
    apply emits_bind_subscript. intros src_id _.
    apply emits_bind_subscript. intros title _.
    intros s0. unfold mbind at 1, M_bind at 1, bind at 1.
    rewrite last_ancestor_id_pure. unfold direct_parent.
    destruct (last (ancestors_of p)) as [a|]; simpl.
    - destruct (anc_id a); [apply place_page_write_of|].
      exists []. by rewrite app_nil_r.
    - apply place_page_write_of. }
  destruct (Hrun s) as (tr & Htr & Hall). exists tr. split; [done|].
  intros req Hin. rewrite Forall_forall in Hall. by apply (Hall _ Hin).
Qed.

(** ** Requests that are certainly sent *)

Definition any_event (_ : event) : Prop := True.

Lemma emits_any {A} P (m : M A) : emits P m -> emits any_event m.
Proof. apply emits_mono. done. Qed.

Lemma emits_trace {A} P (m : M A) s o s' :
  emits P m -> m s = (o, s') ->
  exists tr, trace s' = trace s ++ tr /\ Forall P tr.
Proof. intros Hm Hrun. specialize (Hm s). by rewrite Hrun in Hm. Qed.

Lemma sends_bind {A B} ev (m : M A) (k : A -> M B) :
  sends ev m -> (forall a, emits any_event (k a)) -> sends ev (m ≫= k).
Proof.
  intros Hm Hk s. unfold mbind, M_bind, bind.
  destruct (Hm s) as (tr1 & Ht1 & Hin).
  destruct (m s) as [[a|e|] s1]; simpl in *; [|by exists tr1..].
  destruct (Hk a s1) as (tr2 & Ht2 & _).
  exists (tr1 ++ tr2). rewrite Ht2, Ht1, app_assoc. split; [done|].
  apply elem_of_app. by left.
Qed.

Lemma sends_req sess method url kw :
  1 <= RETRY_MAX cfg ->
  sends (Sent (the_request sess method url kw))
    (_req_with_retry sess method url kw).
Proof.
  intros Hn s. unfold _req_with_retry.
  rewrite seqZ_cons, retry_loop_cons by lia.
  set (req := the_request sess method url kw).
  destruct (sess_request (world s) req) as [a w]. cbv zeta.
  set (s1 := {| world := w; trace := trace s ++ [Sent req] |}).
  assert (forall o : outcome response,
            exists tr, trace (snd (o, s1)) = trace s ++ tr /\ Sent req ∈ tr) as Hnow.
  { intros o. exists [Sent req]. split; [done|]. apply list_elem_of_singleton. done. }
  assert (forall m : M response, emits any_event m ->
            exists tr, trace (snd (m s1)) = trace s ++ tr /\ Sent req ∈ tr) as Hlater.
  { intros m Hm. destruct (Hm s1) as (tr & Htr & _).
    exists (Sent req :: tr). split; [|by left].
    rewrite Htr. simpl. by rewrite <- app_assoc. }
  assert (forall l r, emits any_event (retry_loop l r req)) as Hloop.
  { intros l r. eapply emits_any, emits_retry_loop with (R := fun _ => True). done. }
  destruct a as [r'|e].
  - destruct (status_code r' =? 429).
    { apply Hlater. unfold rate_limit_wait.
      repeat first [apply Hloop | apply emits_time_sleep; done | emits_step]. }
    destruct (_ && _); [|apply Hnow].
    destruct (RETRY_MAX cfg <=? 1); [apply Hnow|].
    apply Hlater. repeat first [apply Hloop | apply emits_time_sleep; done | emits_step].
  - destruct (RETRY_MAX cfg <=? 1); [apply Hnow|].
    apply Hlater. repeat first [apply Hloop | apply emits_time_sleep; done | emits_step].
Qed.

Lemma attachments_list_url_not_empty src_id :
  String.eqb (attachments_list_url src_id) "" = false.
Proof.
  apply String.eqb_neq. unfold attachments_list_url, attachments_url.
  by destruct (rstrip_slash (SRC_BASE_URL cfg)).
Qed.

Lemma copy_labels_sends src dst src_id dst_id :
  1 <= RETRY_MAX cfg ->
  COPY_LABELS cfg = true ->
  sends (Sent (the_request src "GET" (labels_url (SRC_BASE_URL cfg) src_id) KwNone))
    (copy_labels src dst src_id dst_id).
Proof.
  intros Hn Hon. unfold copy_labels. rewrite Hon.
  change (negb true) with false. cbv iota.
  apply sends_bind; [by apply sends_req|intros r].
  repeat first
    [ eapply emits_any, emits_req with (R := fun _ => True); done | emits_step ].
Qed.

Lemma copy_attachments_sends fuel src dst src_id dst_id s u s' :
  1 <= RETRY_MAX cfg ->
  COPY_ATTACHMENTS cfg = true ->
  copy_attachments fuel src dst src_id dst_id s = (Ok u, s') ->
  exists tr, trace s' = trace s ++ tr /\
    Sent (the_request src "GET" (attachments_list_url src_id) KwNone) ∈ tr.
Proof.
  intros Hn Hon Hrun. unfold copy_attachments in Hrun. rewrite Hon in Hrun.
  change (negb true) with false in Hrun. cbv iota in Hrun.
  destruct fuel as [|fuel]; cbn [_paged_get] in Hrun;
    rewrite attachments_list_url_not_empty in Hrun; [done|].
  match type of Hrun with
  | (?m ≫= ?k) s = _ =>
      assert (sends (Sent (the_request src "GET" (attachments_list_url src_id) KwNone))
                (m ≫= k)) as Hs
  end.
  { apply sends_bind; [by apply sends_req|intros r].
    apply emits_bind; [apply emits_raise_for_status|intros _].
    apply emits_bind; [apply emits_json_of|intros d].
    assert (forall x a, emits (on_sent (fun _ => True))
              (copy_attachment src dst dst_id x a)) as Hbody.
    { intros att []. unfold copy_attachment.
      repeat first [by apply emits_req | emits_step]. }
    apply emits_bind.
    { eapply emits_any, emits_for_each, Hbody. }
    intros acc. destruct (truthy (d_next d)); [|apply emits_ret].
    eapply emits_any, (emits_paged_get (fun _ => True)); [done|apply Hbody]. }
  specialize (Hs s). by rewrite Hrun in Hs.
Qed.

Lemma copy_assets_Ok fuel src dst src_id id_map s id_map' s' :
  1 <= RETRY_MAX cfg ->
  copy_assets fuel src dst src_id id_map s = (Ok id_map', s') ->
  id_map' = id_map /\ is_Some (id_map !! src_id) /\
  exists tr, trace s' = trace s ++ tr /\
    (COPY_LABELS cfg = true ->
       Sent (the_request src "GET" (labels_url (SRC_BASE_URL cfg) src_id) KwNone) ∈ tr) /\
    (COPY_ATTACHMENTS cfg = true ->
       Sent (the_request src "GET" (attachments_list_url src_id) KwNone) ∈ tr).
Proof.
  intros Hn Hrun. unfold copy_assets in Hrun.
  apply bind_Ok_inv in Hrun as (dst_id & s0 & Hsub & Hrun).
  apply subscript_Ok_inv in Hsub as [Hsome ->].
  apply bind_Ok_inv in Hrun as ([] & s2 & Hlab & Hrun).
  apply bind_Ok_inv in Hrun as ([] & s3 & Hatt & Hrun).
  injection Hrun as <- <-. split; [done|]. split; [by eexists|].
  assert (exists t1, trace s2 = trace s ++ t1 /\
            (COPY_LABELS cfg = true ->
             Sent (the_request src "GET" (labels_url (SRC_BASE_URL cfg) src_id) KwNone) ∈ t1))
    as (t1 & Ht1 & Hin1).
  { destruct (COPY_LABELS cfg) eqn:Hon.
    - destruct (copy_labels_sends src dst src_id dst_id Hn Hon s) as (t & Ht & Hin).
      rewrite Hlab in Ht. by exists t.
    - injection Hlab as <-. exists []. by rewrite app_nil_r. }
  assert (exists t2, trace s3 = trace s2 ++ t2 /\
            (COPY_ATTACHMENTS cfg = true ->
             Sent (the_request src "GET" (attachments_list_url src_id) KwNone) ∈ t2))
    as (t2 & Ht2 & Hin2).
  { destruct (COPY_ATTACHMENTS cfg) eqn:Hon.
    - destruct (copy_attachments_sends _ _ _ _ _ _ _ _ Hn Hon Hatt) as (t & Ht & Hin).
      by exists t.
    - injection Hatt as <-. exists []. by rewrite app_nil_r. }
  exists (t1 ++ t2). rewrite Ht2, Ht1, app_assoc. split; [done|].
  split; intros Hon; apply elem_of_app; [left|right]; auto.
Qed.

Lemma sends_after_print {A} ev line (m : M A) :
  sends ev m -> sends ev (print line ;; m).
Proof.
  intros Hm s. unfold mbind, M_bind, bind, print, tell.
  destruct (Hm {| world := world s; trace := trace s ++ [Printed line] |})
    as (tr & Htr & Hin).
  exists (Printed line :: tr). split; [|by right].
  rewrite Htr. simpl. by rewrite <- app_assoc.
Qed.


(** ** The conflict policy *)


(** C1 (amended). When an iteration of the run loop completes, the page's
    destination id is registered.  If the id was taken from an existing page
    in skip mode, nothing follows the lookup but the SKIP line: neither
    [copy_labels] nor [copy_attachments] asks anything.  In every other case
    (a page created, created under a suffixed title, or updated) the labels
    of the source page are requested when [COPY_LABELS] is on and its
    attachments are listed when [COPY_ATTACHMENTS] is on. *)
Theorem assets_copied_unless_skipped
    (fuel : nat) (src dst : session) (src_id title storage : string)
    (parent_id : option string) (id_map id_map' : gmap string string)
    (s s1 s' : state) (existing : option entry) :
  1 <= RETRY_MAX cfg ->
  find_dest_page_by_title dst title parent_id s = (Ok existing, s1) ->
  place_page fuel src dst src_id title storage parent_id id_map s
    = (Ok id_map', s') ->
  exists tr,
    trace s' = trace s1 ++ tr /\
    is_Some (id_map' !! src_id) /\
    if bool_decide (is_Some existing /\ ON_TITLE_CONFLICT cfg = "skip")
    then tr = [Printed ("SKIP (exists)  " +:+ title)]
    else
      (COPY_LABELS cfg = true ->
       Sent (the_request src "GET" (labels_url (SRC_BASE_URL cfg) src_id) KwNone) ∈ tr)
      /\
      (COPY_ATTACHMENTS cfg = true ->
       Sent (the_request src "GET" (attachments_list_url src_id) KwNone) ∈ tr).
Proof.
  intros Hn Hfind Hrun. unfold place_page in Hrun.
  rewrite (bind_Ok _ _ _ _ _ Hfind) in Hrun.
  assert (forall line (w : M entry) s2 m,
            emits any_event w ->
            (print line ;; x ← w; i ← subscript "id" (e_id x);
             copy_assets fuel src dst src_id (<[src_id := i]> id_map)) s2
              = (Ok m, s') ->
            exists tr, trace s' = trace s2 ++ tr /\ is_Some (m !! src_id) /\
              (COPY_LABELS cfg = true ->
               Sent (the_request src "GET" (labels_url (SRC_BASE_URL cfg) src_id) KwNone) ∈ tr)
              /\
              (COPY_ATTACHMENTS cfg = true ->
               Sent (the_request src "GET" (attachments_list_url src_id) KwNone) ∈ tr))
    as Hwritten.
  { intros line w s2 m Hw H.
    apply bind_Ok_inv in H as ([] & s3 & Hprint & H).
    injection Hprint as <-.
    apply bind_Ok_inv in H as (x & s4 & Hx & H).
    apply bind_Ok_inv in H as (i & s5 & Hi & H).
    apply subscript_Ok_inv in Hi as [_ ->].
    destruct (emits_trace _ _ _ _ _ Hw Hx) as (t1 & Ht1 & _).
    apply copy_assets_Ok in H as (-> & Hsome & t2 & Ht2 & Hlab & Hatt); [|done].
    exists (Printed line :: t1 ++ t2). rewrite Ht2, Ht1. simpl.
    split; [by rewrite <- !app_assoc|]. split; [done|].
    split; intros Hon; right; apply elem_of_app; right; auto. }
  destruct existing as [ex|].
  - destruct (String.eqb (ON_TITLE_CONFLICT cfg) "skip") eqn:Hskip.
    + apply String.eqb_eq in Hskip.
      rewrite bool_decide_eq_true_2 by (split; [by eexists|done]).
      apply bind_Ok_inv in Hrun as ([] & s3 & Hprint & Hrun).
      injection Hprint as <-.
      apply bind_Ok_inv in Hrun as (i & s4 & Hi & Hrun).
      apply subscript_Ok_inv in Hi as [_ ->]. injection Hrun as <- <-.
      eexists. split; [done|]. split; [|done].
      rewrite lookup_insert_eq. by eexists.
    + apply String.eqb_neq in Hskip.
      rewrite bool_decide_eq_false_2 by (by intros [_ ?]).
      destruct (String.eqb (ON_TITLE_CONFLICT cfg) "update").
      * eapply Hwritten; [|exact Hrun].
        eapply emits_any, emits_update_page with (R := fun _ => True). done.
      * eapply Hwritten; [|exact Hrun].
        eapply emits_any, emits_create_page.
  - rewrite bool_decide_eq_false_2 by (by intros [[? ?] _]).
    eapply Hwritten; [|exact Hrun].
    eapply emits_any, emits_create_page.
Qed.

(** * Further properties of the engine *)

(** ** More on the retrying transport *)

(** The requests among the events of a trace, in order. *)
Definition requests_of (tr : list event) : list request :=
  omap (fun ev => match ev with Sent r => Some r | _ => None end) tr.

(** The exceptions the transport lets out: a connection fault, a
    [ValueError] from [float] or [time.sleep], and the unbound [r]. *)
Definition transport_exn (e : exn) : Prop :=
  match e with
  | RequestException _ | ValueError | UnboundLocalError _ => True
  | _ => False
  end.

(** Whatever [m] raises satisfies [E]. *)
Definition raises_only {A} (E : exn -> Prop) (m : M A) : Prop :=
  forall s e s', m s = (Raise e, s') -> E e.



(** An answer the loop returns whatever the attempt. *)
Definition settled (r : response) : Prop :=
  status_code r <> 429 /\ ~ (500 <= status_code r < 600).

Lemma requests_of_app tr1 tr2 :
  requests_of (tr1 ++ tr2) = requests_of tr1 ++ requests_of tr2.
Proof. apply omap_app. Qed.

Lemma settled_tests r :
  settled r ->
  (status_code r =? 429) = false /\
  (500 <=? status_code r) && (status_code r <? 600) = false.
Proof.
  intros [H429 H5]. split; [by apply Z.eqb_neq|].
  apply andb_false_iff.
  destruct (Z.leb_spec 500 (status_code r)); [right|by left].
  apply Z.ltb_ge. lia.
Qed.

(** X1. With at least one attempt configured, a first answer whose status is
    neither 429 nor in 500-599 (a 2xx, but also a 404 or a 409) is returned
    at once: one request is sent, nothing is slept, nothing is retried. *)
Theorem settled_response_returned_at_once
    (sess : session) (method url : string) (kw : kwargs) (s : state)
    (r : response) (w : World) :
  1 <= RETRY_MAX cfg ->
  sess_request (world s) (the_request sess method url kw) = (Response r, w) ->
  settled r ->
  _req_with_retry sess method url kw s =
  (Ok r, {| world := w;
            trace := trace s ++ [Sent (the_request sess method url kw)] |}).
Proof.
  intros Hn Hans Hr. unfold _req_with_retry.
  rewrite seqZ_cons, retry_loop_cons, Hans by lia. cbv beta iota zeta.
  destruct (settled_tests r Hr) as [-> ->]. done.
Qed.

(** X2. With [RETRY_MAX] at 0 or below the loop body never runs: nothing is
    sent and the final [return r] raises [UnboundLocalError]. *)
Theorem no_attempt_leaves_r_unbound
    (sess : session) (method url : string) (kw : kwargs) (s : state) :
  RETRY_MAX cfg <= 0 ->
  _req_with_retry sess method url kw s = (Raise (UnboundLocalError "r"), s).
Proof.
  intros Hn. unfold _req_with_retry.
  replace (seqZ 1 (RETRY_MAX cfg)) with (@nil Z); [done|].
  symmetry. apply length_zero_iff_nil. rewrite length_seqZ. lia.
Qed.

Lemma retry_loop_requests req : forall attempts r s,
  exists tr n,
    trace (snd (retry_loop attempts r req s)) = trace s ++ tr /\
    requests_of tr = replicate n req /\
    (n <= length attempts)%nat /\
    (attempts <> [] -> (1 <= n)%nat).
Proof.
  intros attempts. induction attempts as [|k rest IH]; intros r s.
  - exists [], O. simpl. rewrite app_nil_r. by destruct r.
  - rewrite retry_loop_cons.
    destruct (sess_request (world s) req) as [a w]. cbv zeta.
    set (s1 := {| world := w; trace := trace s ++ [Sent req] |}).
    assert (forall o : outcome response,
              exists tr n, trace (snd (o, s1)) = trace s ++ tr /\
                requests_of tr = replicate n req /\
                (n <= length (k :: rest))%nat /\
                (k :: rest <> [] -> (1 <= n)%nat)) as Hnow.
    { intros o. exists [Sent req], 1%nat. simpl. repeat split; lia. }
    assert (forall q r',
              exists tr n,
                trace (snd ((time_sleep q ;; retry_loop rest r' req) s1))
                  = trace s ++ tr /\
                requests_of tr = replicate n req /\
                (n <= length (k :: rest))%nat /\
                (k :: rest <> [] -> (1 <= n)%nat)) as Hlater.
    { intros q r'. unfold mbind, M_bind, bind, time_sleep.
      destruct (Qle_bool 0 q); [|apply Hnow]. simpl.
      destruct (IH r' {| world := w; trace := (trace s ++ [Sent req]) ++ [Slept q] |})
        as (tr & n & Htr & Hreq & Hle & _).
      exists (Sent req :: Slept q :: tr), (S n). rewrite Htr. simpl.
      rewrite <- !app_assoc. simpl. rewrite Hreq.
      repeat split; try done; lia. }
    destruct a as [r'|e].
    + destruct (status_code r' =? 429).
      { unfold mbind at 1, M_bind at 1, bind at 1, rate_limit_wait.
        destruct (retry_after r') as [ra|]; [|apply Hlater].
        destruct (truthy (Some ra)); [|apply Hlater].
        destruct (py_float ra); [apply Hlater|apply Hnow]. }
      destruct (_ && _); [|apply Hnow].
      destruct (RETRY_MAX cfg <=? k); [apply Hnow|apply Hlater].
    + destruct (RETRY_MAX cfg <=? k); [apply Hnow|apply Hlater].
Qed.

(** X3. Whatever the remote answers, one call of [_req_with_retry] sends the
    same request every time, at most [RETRY_MAX] times, and at least once
    when [RETRY_MAX] is 1 or more. *)
Theorem transport_repeats_one_request_within_bound
    (sess : session) (method url : string) (kw : kwargs) (s : state) :
  exists tr n,
    trace (snd (_req_with_retry sess method url kw s)) = trace s ++ tr /\
    requests_of tr = replicate n (the_request sess method url kw) /\
    Z.of_nat n <= Z.max 0 (RETRY_MAX cfg) /\
    (1 <= RETRY_MAX cfg -> (1 <= n)%nat).
Proof.
  unfold _req_with_retry.
  destruct (retry_loop_requests (the_request sess method url kw)
              (seqZ 1 (RETRY_MAX cfg)) None s) as (tr & n & Htr & Hreq & Hle & Hone).
  exists tr, n. split; [done|]. split; [done|].
  rewrite length_seqZ in Hle. split; [lia|]. intros Hn. apply Hone.
  rewrite seqZ_cons by lia. done.
Qed.



(** ** What may be raised *)

Section RaisesOnly.

Context (E : exn -> Prop).

Lemma raises_only_ret {A} (a : A) : raises_only E (ret a).
Proof. by intros s e s'. Qed.

Lemma raises_only_diverge {A} : raises_only E (@diverge A).
Proof. by intros s e s'. Qed.

Lemma raises_only_raise {A} e : E e -> raises_only E (@raise A e).
Proof. intros He s e' s' H. by injection H as <- _. Qed.

Lemma raises_only_bind {A B} (m : M A) (k : A -> M B) :
  raises_only E m -> (forall a, raises_only E (k a)) -> raises_only E (m ≫= k).
Proof.
  intros Hm Hk s e s'. unfold mbind, M_bind, bind.
  destruct (m s) as [[a|e1|] s1] eqn:Hms; [apply Hk| |done].
  intros H. injection H as <- <-. by eapply Hm.
Qed.

Lemma raises_only_tell ev : raises_only E (tell ev).
Proof. by intros s e s'. Qed.

Lemma raises_only_print line : raises_only E (print line).
Proof. apply raises_only_tell. Qed.

Lemma raises_only_send req : raises_only E (send req).
Proof. intros s e s'. unfold send. by destruct (sess_request (world s) req). Qed.

Lemma raises_only_time_sleep q : E ValueError -> raises_only E (time_sleep q).
Proof.
  intros He. unfold time_sleep.
  destruct (Qle_bool 0 q); [apply raises_only_tell|by apply raises_only_raise].
Qed.

Lemma raises_only_subscript {A} k (o : option A) :
  E (KeyError k) -> raises_only E (subscript k o).
Proof.
  intros He. destruct o; [apply raises_only_ret|by apply raises_only_raise].
Qed.

Lemma raises_only_raise_for_status r :
  E (HTTPError r) -> raises_only E (raise_for_status r).
Proof.
  intros He. unfold raise_for_status.
  destruct (_ && _); [by apply raises_only_raise|apply raises_only_ret].
Qed.

Lemma raises_only_json_of r : E JSONDecodeError -> raises_only E (json_of r).
Proof.
  intros He. unfold json_of.
  destruct (json r); [apply raises_only_ret|by apply raises_only_raise].
Qed.

Lemma raises_only_for_each {A B} (l : list B) (body : B -> A -> M A) acc :
  (forall x a, raises_only E (body x a)) -> raises_only E (for_each l body acc).
Proof.
  intros Hbody. revert acc. induction l as [|x l IH]; intros acc; simpl.
  - apply raises_only_ret.
  - apply raises_only_bind; [apply Hbody|apply IH].
Qed.

Lemma raises_only_retry_loop attempts r req :
  (forall e, transport_exn e -> E e) ->
  raises_only E (retry_loop attempts r req).
Proof.
  intros HE. revert r. induction attempts as [|k rest IH]; intros r; simpl.
  - destruct r; [apply raises_only_ret|by apply raises_only_raise, HE].
  - apply raises_only_bind; [apply raises_only_send|intros a].
    unfold rate_limit_wait.
    repeat first
      [ apply IH | apply raises_only_ret
      | apply raises_only_raise, HE; exact I
      | apply raises_only_time_sleep, HE; exact I
      | apply raises_only_bind; [|intros ?]
      | match goal with
        | |- raises_only _ (if ?b then _ else _) => destruct b
        | |- raises_only _ (match ?x with _ => _ end) => destruct x
        end ].
Qed.

Lemma raises_only_req sess method url kw :
  (forall e, transport_exn e -> E e) ->
  raises_only E (_req_with_retry sess method url kw).
Proof. apply raises_only_retry_loop. Qed.

End RaisesOnly.

Lemma raises_only_mono {A} (E F : exn -> Prop) (m : M A) :
  (forall e, E e -> F e) -> raises_only E m -> raises_only F m.
Proof. intros HEF Hm s e s' H. eapply HEF, Hm, H. Qed.


(** ** The paginated fetcher *)

(** The loop body behind [list(_paged_get(...))]: each item is appended. *)
Definition collect (item : entry) (pages : list entry) : M (list entry) :=
  ret (pages ++ [item]).

(** The URL [q] of [fetch_all_pages_from_space] *)
Definition source_listing_url : string :=
  rstrip_slash (SRC_BASE_URL cfg) +:+ "/rest/api/content"
  +:+ "?type=page&spaceKey=" +:+ quote (SRC_SPACE_KEY cfg)
  +:+ "&expand=body.storage,ancestors,version"
  +:+ "&limit=" +:+ pretty (PAGE_LIMIT cfg).

(** [o] with [f] applied to the value it returns, if it returns. *)
Definition map_outcome {A B} (f : A -> B) (o : outcome A) : outcome B :=
  match o with
  | Ok a => Ok (f a)
  | Raise e => Raise e
  | Diverge => Diverge
  end.

Lemma fetch_all_pages_unfold fuel src_sess :
  fetch_all_pages_from_space fuel src_sess
  = _paged_get fuel src_sess source_listing_url collect [].
Proof. reflexivity. Qed.

Lemma source_listing_url_not_empty : String.eqb source_listing_url "" = false.
Proof.
  apply String.eqb_neq. unfold source_listing_url.
  by destruct (rstrip_slash (SRC_BASE_URL cfg)).
Qed.

Lemma for_each_collect l acc s : for_each l collect acc s = (Ok (acc ++ l), s).
Proof.
  revert acc. induction l as [|x l IH]; intros acc; simpl.
  - by rewrite app_nil_r.
  - unfold mbind, M_bind, bind, collect at 1, ret at 1.
    rewrite IH. by rewrite <- app_assoc.
Qed.

Lemma paged_collect_acc sess : forall fuel url acc s,
  _paged_get fuel sess url collect acc s =
  (map_outcome (app acc) (fst (_paged_get fuel sess url collect [] s)),
   snd (_paged_get fuel sess url collect [] s)).
Proof.
  intros fuel. induction fuel as [|fuel IH]; intros url acc s; simpl.
  - destruct (String.eqb url ""); simpl; [by rewrite app_nil_r|done].
  - destruct (String.eqb url ""); simpl; [by rewrite app_nil_r|].
    unfold mbind, M_bind, bind.
    destruct (_req_with_retry sess "GET" url KwNone s) as [[r|e|] s1]; [|done..].
    destruct (raise_for_status r s1) as [[[]|e|] s2]; [|done..].
    destruct (json_of r s2) as [[d|e|] s3]; [|done..].
    rewrite !for_each_collect. cbn [app].
    destruct (truthy (d_next d)); simpl; [|done].
    rewrite (IH _ (acc ++ default [] (d_results d))).
    rewrite (IH _ (default [] (d_results d))). simpl.
    destruct (fst _); simpl; [by rewrite app_assoc|done..].
Qed.

(** X6. Collected into a list, [_paged_get] yields the results of the first
    page in the order of the answer, followed by what it yields from the
    next page, whose URL is the answer's base without its trailing slashes
    followed by the answer's next link; with no next link it stops there. *)
Theorem paged_get_yields_page_then_rest
    (fuel : nat) (sess : session) (url : string) (s s1 : state)
    (r : response) (d : document) :
  String.eqb url "" = false ->
  _req_with_retry sess "GET" url KwNone s = (Ok r, s1) ->
  ~ (400 <= status_code r < 600) ->
  json r = Some d ->
  _paged_get (S fuel) sess url collect [] s =
  if truthy (d_next d) then
    (map_outcome (app (default [] (d_results d)))
       (fst (_paged_get fuel sess
               (rstrip_slash (default "" (d_base d)) +:+ default "" (d_next d))
               collect [] s1)),
     snd (_paged_get fuel sess
            (rstrip_slash (default "" (d_base d)) +:+ default "" (d_next d))
            collect [] s1))
  else (Ok (default [] (d_results d)), s1).
Proof.
  intros Hurl Hreq Hst Hjson. cbn [_paged_get]. rewrite Hurl.
  rewrite (bind_Ok _ _ _ _ _ Hreq).
  assert (raise_for_status r s1 = (Ok tt, s1)) as Hok.
  { unfold raise_for_status.
    replace ((400 <=? status_code r) && (status_code r <? 600)) with false; [done|].
    symmetry. apply andb_false_iff.
    destruct (Z.leb_spec 400 (status_code r)); [right|by left].
    apply Z.ltb_ge. lia. }
  rewrite (bind_Ok _ _ _ _ _ Hok).
  assert (json_of r s1 = (Ok d, s1)) as Hd by (unfold json_of; by rewrite Hjson).
  rewrite (bind_Ok _ _ _ _ _ Hd).
  rewrite (bind_Ok _ _ _ _ _ (for_each_collect _ _ _)). cbn [app].
  destruct (truthy (d_next d)); [|done].
  apply paged_collect_acc.
Qed.

Lemma paged_get_error_status {A}
    (fuel : nat) (sess : session) (url : string) (body : entry -> A -> M A)
    (acc : A) (s s1 : state) (r : response) :
  String.eqb url "" = false ->
  _req_with_retry sess "GET" url KwNone s = (Ok r, s1) ->
  400 <= status_code r < 600 ->
  _paged_get (S fuel) sess url body acc s = (Raise (HTTPError r), s1).
Proof.
  intros Hurl Hreq Hst. cbn [_paged_get]. rewrite Hurl.
  rewrite (bind_Ok _ _ _ _ _ Hreq).
  unfold mbind, M_bind, bind, raise_for_status.
  replace ((400 <=? status_code r) && (status_code r <? 600)) with true; [done|].
  symmetry. apply andb_true_iff. split; [apply Z.leb_le|apply Z.ltb_lt]; lia.
Qed.

(** ** More on the hierarchy sorter and the identity resolver *)

(** A candidate whose immediate ancestor, if it has one, shows its id. *)
Definition parent_known (p : entry) : Prop :=
  match last (ancestors_of p) with
  | Some a => is_Some (anc_id a)
  | None => True
  end.

Lemma scan_candidates_first results parent_id s :
  Forall parent_known results ->
  scan_candidates results parent_id s =
  (Ok (head (filter (fun p => or_None parent_id = or_None (direct_parent p))
               results)), s).
Proof.
  induction 1 as [|p rest Hp Hrest IH]; simpl; [done|].
  unfold mbind, M_bind, bind. rewrite last_ancestor_id_pure.
  rewrite filter_cons. unfold parent_known in Hp. unfold direct_parent.
  destruct (last (ancestors_of p)) as [a|]; simpl.
  - destruct Hp as [i Hi]. rewrite Hi.
    case_bool_decide; case_decide; done.
  - case_bool_decide; case_decide; done.
Qed.

(** X7. On a 200 answer whose candidates show the ids of their immediate
    ancestors, [find_dest_page_by_title] returns the first candidate, in the
    order of the answer, whose direct parent is the caller's [parent_id]
    (an absent and an empty id both counting as no parent), and [None] when
    there is none. *)
Theorem find_dest_returns_first_match
    (dst : session) (title : string) (parent_id : option string)
    (s s1 : state) (r : response) (d : document) :
  _req_with_retry dst "GET" (find_dest_url title) KwNone s = (Ok r, s1) ->
  status_code r = 200 ->
  json r = Some d ->
  Forall parent_known (default [] (d_results d)) ->
  find_dest_page_by_title dst title parent_id s =
  (Ok (head (filter (fun p => or_None parent_id = or_None (direct_parent p))
               (default [] (d_results d)))), s1).
Proof.
  intros Hreq Hst Hjson Hknown. unfold find_dest_page_by_title.
  rewrite (bind_Ok _ _ _ _ _ Hreq), Hst. cbn [Z.eqb Pos.eqb negb].
  assert (json_of r s1 = (Ok d, s1)) as Hd by (unfold json_of; by rewrite Hjson).
  rewrite (bind_Ok _ _ _ _ _ Hd). by apply scan_candidates_first.
Qed.

(** Splits a goal [raises_only E m] along the structure of [m]; what is left
    are the exceptions [m] does raise, to be shown in [E]. *)
Ltac raises_step :=
  first
    [ apply raises_only_ret | apply raises_only_diverge
    | apply raises_only_print | apply raises_only_send
    | apply raises_only_raise | apply raises_only_time_sleep
    | apply raises_only_subscript | apply raises_only_raise_for_status
    | apply raises_only_json_of | apply raises_only_req
    | apply raises_only_bind; [|intros ?]
    | match goal with
      | |- raises_only _ (if ?b then _ else _) => destruct b
      | |- raises_only _ (match ?x with _ => _ end) => destruct x
      end ].

(** ** The two page writes under failure *)

Lemma retry_loop_settled k rest r0 req s r w :
  sess_request (world s) req = (Response r, w) ->
  settled r ->
  retry_loop (k :: rest) r0 req s =
  (Ok r, {| world := w; trace := trace s ++ [Sent req] |}).
Proof.
  intros Hans Hr. rewrite retry_loop_cons, Hans. cbv beta iota zeta.
  destruct (settled_tests r Hr) as [-> ->]. done.
Qed.

Lemma req_settled sess method url kw s r w :
  1 <= RETRY_MAX cfg ->
  sess_request (world s) (the_request sess method url kw) = (Response r, w) ->
  settled r ->
  _req_with_retry sess method url kw s =
  (Ok r, {| world := w;
            trace := trace s ++ [Sent (the_request sess method url kw)] |}).
Proof.
  intros Hn Hans Hr. unfold _req_with_retry. rewrite seqZ_cons by lia.
  by apply retry_loop_settled.
Qed.

Lemma req_server_faults sess method url kw s rs :
  1 <= RETRY_MAX cfg ->
  (0 <= RETRY_BASE_WAIT cfg)%Q ->
  answers (Z.to_nat (RETRY_MAX cfg)) (world s) (the_request sess method url kw)
    = Response <$> rs ->
  Forall (fun r => 500 <= status_code r < 600) rs ->
  exists r, last rs = Some r /\
    _req_with_retry sess method url kw s =
    (Ok r,
     {| world := world_after (Z.to_nat (RETRY_MAX cfg)) (world s)
                   (the_request sess method url kw);
        trace := trace s
          ++ retried (the_request sess method url kw)
               (backoff <$> seqZ 1 (RETRY_MAX cfg - 1))
          ++ [Sent (the_request sess method url kw)] |}).
Proof.
  intros Hn Hb Hans Hall.
  pose proof (answers_length_eq _ _ _ _ _ Hans) as Hlen.
  unfold _req_with_retry. rewrite <- Hlen.
  replace (seqZ 1 (RETRY_MAX cfg)) with (seqZ 1 (Z.of_nat (length rs)))
    by (f_equal; lia).
  replace (RETRY_MAX cfg - 1) with (Z.of_nat (pred (length rs))) by lia.
  apply (retry_loop_server_faults _ rs 1 None s);
    rewrite ?Hlen; try done; try lia.
  destruct rs; [simpl in Hlen; lia|done].
Qed.

Lemma error_status_raises r s :
  400 <= status_code r < 600 ->
  raise_for_status r s = (Raise (HTTPError r), s).
Proof.
  intros Hst. unfold raise_for_status.
  replace ((400 <=? status_code r) && (status_code r <? 600)) with true; [done|].
  symmetry. apply andb_true_iff. split; [apply Z.leb_le|apply Z.ltb_lt]; lia.
Qed.

(** The request [create_page] makes. *)
Definition create_request (dst : session) (title storage : string)
    (parent_id : option string) : request :=
  the_request dst "POST" (rstrip_slash (DST_BASE_URL cfg) +:+ "/rest/api/content")
    (KwJsonPage (create_body title storage parent_id) json_headers).

(** The request [update_page] makes for a page of id [page_id] and title
    [title]. *)
Definition update_request (dst : session) (page : entry) (page_id title : string)
    (storage : string) : request :=
  the_request dst "PUT"
    (rstrip_slash (DST_BASE_URL cfg) +:+ "/rest/api/content/" +:+ page_id)
    (KwJsonPage (update_body page_id title (default 1 (e_version page)) storage)
       json_headers).

(** X8. When every one of the [RETRY_MAX] attempts of a creation is answered
    with a status in 500-599, [create_page] raises [HTTPError] for the last
    answer, after the same request was sent [RETRY_MAX] times with a
    back-off sleep between two attempts. *)
Theorem create_page_raises_after_server_faults
    (dst : session) (title storage : string) (parent_id : option string)
    (s : state) (rs : list response) :
  1 <= RETRY_MAX cfg ->
  (0 <= RETRY_BASE_WAIT cfg)%Q ->
  answers (Z.to_nat (RETRY_MAX cfg)) (world s)
    (create_request dst title storage parent_id) = Response <$> rs ->
  Forall (fun r => 500 <= status_code r < 600) rs ->
  exists r, last rs = Some r /\
    create_page dst title storage parent_id s =
    (Raise (HTTPError r),
     {| world := world_after (Z.to_nat (RETRY_MAX cfg)) (world s)
                   (create_request dst title storage parent_id);
        trace := trace s
          ++ retried (create_request dst title storage parent_id)
               (backoff <$> seqZ 1 (RETRY_MAX cfg - 1))
          ++ [Sent (create_request dst title storage parent_id)] |}).
Proof.
  intros Hn Hb Hans Hall.
  destruct (req_server_faults _ _ _ _ _ _ Hn Hb Hans Hall) as (r & Hlast & Hreq).
  exists r. split; [done|]. unfold create_page.
  rewrite (bind_Ok _ _ _ _ _ Hreq).
  assert (500 <= status_code r < 600) as Hr.
  { rewrite Forall_forall in Hall. apply Hall.
    apply last_Some in Hlast as [l ->]. apply elem_of_app. right. by left. }
  unfold mbind, M_bind, bind. rewrite error_status_raises by lia. done.
Qed.

(** X9. A 4xx answer other than 429 to the update of a page (a 409 for a
    stale version, say) is not retried: [update_page] raises [HTTPError] for
    it after that one PUT. *)
Theorem update_page_raises_on_client_error
    (dst : session) (page : entry) (storage page_id title : string)
    (s : state) (r : response) (w : World) :
  1 <= RETRY_MAX cfg ->
  e_id page = Some page_id ->
  e_title page = Some title ->
  sess_request (world s) (update_request dst page page_id title storage)
    = (Response r, w) ->
  400 <= status_code r < 500 ->
  status_code r <> 429 ->
  update_page dst page storage s =
  (Raise (HTTPError r),
   {| world := w;
      trace := trace s ++ [Sent (update_request dst page page_id title storage)] |}).
Proof.
  intros Hn Hid Htitle Hans Hst H429. unfold update_page. rewrite Hid, Htitle.
  rewrite (bind_Ok _ _ s page_id s) by done.
  rewrite (bind_Ok _ _ s title s) by done.
  assert (settled r) as Hr by (split; [done|lia]).
  rewrite (bind_Ok _ _ _ _ _ (req_settled _ _ _ _ _ _ _ Hn Hans Hr)).
  unfold mbind, M_bind, bind. rewrite error_status_raises by lia. done.
Qed.

(** ** Labels and attachments are best effort, up to a point *)

(** The exceptions the copy of labels lets out. *)
Definition labels_exn (e : exn) : Prop :=
  transport_exn e \/ e = JSONDecodeError.

(** X10. [copy_labels] swallows every status: it can raise only what the
    transport raises or a JSON decoding error of the source's answer, never
    an [HTTPError] and never a [KeyError]. *)
Theorem copy_labels_raises_no_http_error
    (src dst : session) (src_id dst_id : string) :
  raises_only labels_exn (copy_labels src dst src_id dst_id).
Proof.
  unfold copy_labels.
  repeat first [ raises_step | by left | by right | (intros e He; by left) ].
Qed.

(** The request with which [copy_labels] writes [labels]. *)
Definition labels_post (dst : session) (dst_id : string) (labels : list entry)
  : request :=
  the_request dst "POST" (labels_url (DST_BASE_URL cfg) dst_id)
    (KwJsonLabels (label_payload labels) json_headers).

(** X11. When the source answers 200 with a label list that is not empty,
    [copy_labels] makes one POST to the destination page's label URL whose
    body holds the labels that have a name, in order, each with its prefix
    or ["global"]; whatever response comes back is dropped and [copy_labels]
    returns. *)
Theorem copy_labels_posts_named_labels_and_ignores_answer
    (src dst : session) (src_id dst_id : string) (s s1 : state)
    (r : response) (d : document) :
  COPY_LABELS cfg = true ->
  _req_with_retry src "GET" (labels_url (SRC_BASE_URL cfg) src_id) KwNone s
    = (Ok r, s1) ->
  status_code r = 200 ->
  json r = Some d ->
  default [] (d_results d) <> [] ->
  copy_labels src dst src_id dst_id s =
  (map_outcome (fun _ => tt)
     (fst (_req_with_retry dst "POST" (labels_url (DST_BASE_URL cfg) dst_id)
             (KwJsonLabels (label_payload (default [] (d_results d))) json_headers)
             s1)),
   snd (_req_with_retry dst "POST" (labels_url (DST_BASE_URL cfg) dst_id)
          (KwJsonLabels (label_payload (default [] (d_results d))) json_headers)
          s1)).
Proof.
  intros Hon Hreq Hst Hjson Hne. unfold copy_labels. rewrite Hon.
  change (negb true) with false. cbv iota.
  rewrite (bind_Ok _ _ _ _ _ Hreq), Hst. cbn [Z.eqb Pos.eqb negb].
  assert (json_of r s1 = (Ok d, s1)) as Hd by (unfold json_of; by rewrite Hjson).
  rewrite (bind_Ok _ _ _ _ _ Hd).
  destruct (default [] (d_results d)) as [|l ls] eqn:Hl; [done|].
  unfold mbind, M_bind, bind.
  by destruct (_req_with_retry dst "POST" _ _ s1) as [[?|?|] ?].
Qed.

(** X12. Copying one attachment raises only what the transport raises: no
    status of the download or of the upload, and no missing key, becomes an
    exception. *)
Theorem copy_attachment_raises_transport_errors_only
    (src dst : session) (dst_id : string) (att : entry) (u : unit) :
  raises_only transport_exn (copy_attachment src dst dst_id att u).
Proof.
  unfold copy_attachment. repeat first [ raises_step | done ].
Qed.

(** X13. For an attachment with a download link, a download answered 200 is
    followed by one upload to the destination page, as a file of the
    attachment's title (["attachment.bin"] without one) holding the bytes
    just downloaded, and the upload's response is dropped; a download
    answered with another status is followed by nothing. *)
Theorem copy_attachment_uploads_what_it_downloaded
    (src dst : session) (dst_id : string) (att : entry) (link : string)
    (s s1 : state) (dl : response) :
  e_download att = Some link ->
  link <> "" ->
  _req_with_retry src "GET" (rstrip_slash (SRC_BASE_URL cfg) +:+ link) KwStream s
    = (Ok dl, s1) ->
  copy_attachment src dst dst_id att tt s =
  if status_code dl =? 200 then
    (map_outcome (fun _ => tt)
       (fst (_req_with_retry dst "POST" (attachments_url (DST_BASE_URL cfg) dst_id)
               (KwFiles (default "attachment.bin" (e_title att)) (content dl)
                  "application/octet-stream" [("X-Atlassian-Token", "nocheck")])
               s1)),
     snd (_req_with_retry dst "POST" (attachments_url (DST_BASE_URL cfg) dst_id)
            (KwFiles (default "attachment.bin" (e_title att)) (content dl)
               "application/octet-stream" [("X-Atlassian-Token", "nocheck")])
            s1))
  else (Ok tt, s1).
Proof.
  intros Hlink Hne Hreq. unfold copy_attachment. rewrite Hlink.
  assert (truthy (Some link) = true) as ->.
  { simpl. apply negb_true_iff. by apply String.eqb_neq. }
  cbn [negb default]. rewrite (bind_Ok _ _ _ _ _ Hreq).
  destruct (status_code dl =? 200); cbn [negb]; [|done].
  unfold mbind, M_bind, bind.
  by destruct (_req_with_retry dst "POST" _ _ s1) as [[?|?|] ?].
Qed.

(** X14. The listing of a page's attachments is not best effort: when it is
    answered with a status in 400-599, [copy_attachments] raises
    [HTTPError] for that answer. *)
Theorem copy_attachments_raises_on_listing_error
    (fuel : nat) (src dst : session) (src_id dst_id : string) (s s1 : state)
    (r : response) :
  COPY_ATTACHMENTS cfg = true ->
  _req_with_retry src "GET" (attachments_list_url src_id) KwNone s = (Ok r, s1) ->
  400 <= status_code r < 600 ->
  copy_attachments (S fuel) src dst src_id dst_id s = (Raise (HTTPError r), s1).
Proof.
  intros Hon Hreq Hst. unfold copy_attachments. rewrite Hon.
  change (negb true) with false. cbv iota.
  by apply paged_get_error_status; [apply attachments_list_url_not_empty|..].
Qed.

(** ** The run loop *)

Lemma for_each_app {A B} (l1 l2 : list B) (body : B -> A -> M A) acc s :
  for_each (l1 ++ l2) body acc s
  = (for_each l1 body acc ≫= for_each l2 body) s.
Proof.
  revert acc s. induction l1 as [|x l1 IH]; intros acc s; simpl; [done|].
  unfold mbind, M_bind, bind.
  destruct (body x acc s) as [[a|e|] s1]; [|done..]. apply IH.
Qed.

(** X15. The run loop stops at the first page whose iteration raises: the
    exception is the outcome of the loop, the pages after it are not
    touched, and what was sent for the pages before it stays in the trace. *)
Theorem run_loop_stops_at_first_failure
    (fuel : nat) (src dst : session) (done_pages later : list entry) (p : entry)
    (id_map id_map1 : gmap string string) (s s1 s2 : state) (e : exn) :
  for_each done_pages (run_copy_page fuel src dst) id_map s = (Ok id_map1, s1) ->
  run_copy_page fuel src dst p id_map1 s1 = (Raise e, s2) ->
  for_each (done_pages ++ p :: later) (run_copy_page fuel src dst) id_map s
  = (Raise e, s2).
Proof.
  intros Hdone Hfail. rewrite for_each_app, (bind_Ok _ _ _ _ _ Hdone). simpl.
  unfold mbind, M_bind, bind. by rewrite Hfail.
Qed.

Lemma copy_assets_returns_map fuel src dst src_id id_map s id_map' s' :
  copy_assets fuel src dst src_id id_map s = (Ok id_map', s') -> id_map' = id_map.
Proof.
  unfold copy_assets. intros H.
  apply bind_Ok_inv in H as (? & ? & _ & H).
  apply bind_Ok_inv in H as (? & ? & _ & H).
  apply bind_Ok_inv in H as (? & ? & _ & H).
  by injection H as <- _.
Qed.

Lemma place_page_registers fuel src dst src_id title storage parent_id
    id_map s id_map' s' :
  place_page fuel src dst src_id title storage parent_id id_map s
    = (Ok id_map', s') ->
  exists d, id_map' = <[src_id := d]> id_map.
Proof.
  unfold place_page. intros H.
  apply bind_Ok_inv in H as (existing & s1 & _ & H).
  assert (forall line (w : M entry) s2,
            (print line ;; x ← w; i ← subscript "id" (e_id x);
             copy_assets fuel src dst src_id (<[src_id := i]> id_map)) s2
              = (Ok id_map', s') ->
            exists d, id_map' = <[src_id := d]> id_map) as Hwritten.
  { intros line w s2 Hw.
    apply bind_Ok_inv in Hw as (? & ? & _ & Hw).
    apply bind_Ok_inv in Hw as (? & ? & _ & Hw).
    apply bind_Ok_inv in Hw as (i & ? & _ & Hw).
    apply copy_assets_returns_map in Hw. by exists i. }
  destruct existing as [ex|]; [|by eapply Hwritten].
  destruct (String.eqb (ON_TITLE_CONFLICT cfg) "skip").
  - apply bind_Ok_inv in H as (? & ? & _ & H).
    apply bind_Ok_inv in H as (i & ? & _ & H).
    injection H as <- _. by exists i.
  - destruct (String.eqb (ON_TITLE_CONFLICT cfg) "update"); by eapply Hwritten.
Qed.

Lemma completed_iteration_core fuel src dst p id_map id_map' s s' :
  run_copy_page fuel src dst p id_map s = (Ok id_map', s') ->
  exists src_id dst_id,
    e_id p = Some src_id /\ id_map' = <[src_id := dst_id]> id_map.
Proof.
  unfold run_copy_page. intros H.
  apply bind_Ok_inv in H as (src_id & s0 & Hid & H).
  apply subscript_Ok_inv in Hid as [Hid ->].
  apply bind_Ok_inv in H as (title & s0 & _ & H).
  apply bind_Ok_inv in H as (parent & s1 & _ & H).
  apply place_page_registers in H as [d ->]. by exists src_id, d.
Qed.

(** X16. A completed iteration changes [id_map] at one key only, the id of
    the page, which it maps to a destination id; a later page whose
    immediate ancestor is that (non-empty) id resolves to this destination
    id. *)
Theorem completed_iteration_registers_the_page
    (fuel : nat) (src dst : session) (p : entry)
    (id_map id_map' : gmap string string) (s s' : state) :
  run_copy_page fuel src dst p id_map s = (Ok id_map', s') ->
  exists src_id dst_id,
    e_id p = Some src_id /\
    id_map' = <[src_id := dst_id]> id_map /\
    (src_id <> "" -> resolve_parent id_map' (Some src_id) = Some dst_id).
Proof.
  intros H. apply completed_iteration_core in H as (src_id & d & Hid & ->).
  exists src_id, d. split; [done|]. split; [done|]. intros Hne.
  unfold resolve_parent, truthy.
  replace (String.eqb src_id "") with false by (symmetry; by apply String.eqb_neq).
  simpl. apply lookup_insert_eq.
Qed.

(** X17. When the run loop completes, every page had an id and the keys of
    [id_map] are the keys it had before together with the ids of the pages:
    no key is lost and none is invented. *)
Theorem completed_loop_maps_exactly_the_pages
    (fuel : nat) (src dst : session) (pages : list entry)
    (id_map id_map' : gmap string string) (s s' : state) :
  for_each pages (run_copy_page fuel src dst) id_map s = (Ok id_map', s') ->
  Forall (fun p => is_Some (e_id p)) pages /\
  dom id_map' = dom id_map ∪ list_to_set (omap e_id pages).
Proof.
  revert id_map s. induction pages as [|p pages IH]; intros id_map s H.
  - simpl in H. injection H as <- _. split; [done|]. simpl.
    by rewrite (right_id_L ∅ (∪)).
  - simpl in H. apply bind_Ok_inv in H as (m1 & s1 & Hp & H).
    destruct (completed_iteration_core fuel src dst p id_map m1 s s1 Hp)
      as (i & d & Hid & ->).
    destruct (IH _ _ H) as [Hall Hdom]. split.
    + constructor; [by rewrite Hid|done].
    + rewrite Hdom, dom_insert_L. simpl. rewrite Hid. simpl.
      rewrite (comm_L (∪) {[i]} (dom id_map)).
      by rewrite (assoc_L (∪)).
Qed.

(** ** The creating branches of the conflict policy *)

Lemma create_page_sends dst title storage parent_id :
  1 <= RETRY_MAX cfg ->
  sends (Sent (create_request dst title storage parent_id))
    (create_page dst title storage parent_id).
Proof.
  intros Hn. unfold create_page.
  apply sends_bind; [by apply sends_req|intros r]. repeat emits_step.
Qed.

(** X18. When the lookup finds nothing, in any mode, the page is created
    under its own title; when it finds a page and the mode is neither
    ["skip"] nor ["update"] (["append-suffix"] or any other string) it is
    created under the title followed by [" (copy)"].  In both cases the only
    page body sent in the iteration is that creation, with the source
    markup and the resolved parent. *)
Theorem create_branches_post_the_page_under_its_title
    (fuel : nat) (src dst : session) (src_id title storage : string)
    (parent_id : option string) (id_map : gmap string string)
    (s s1 : state) (existing : option entry) :
  existing = None \/
    (ON_TITLE_CONFLICT cfg <> "skip" /\ ON_TITLE_CONFLICT cfg <> "update") ->
  find_dest_page_by_title dst title parent_id s = (Ok existing, s1) ->
  exists tr,
    trace (snd (place_page fuel src dst src_id title storage parent_id id_map s))
      = trace s1 ++ tr /\
    (forall req, Sent req ∈ tr ->
       no_page_write req \/
       req = create_request dst
               (match existing with
                | Some _ => title +:+ " (copy)"
                | None => title
                end) storage parent_id) /\
    (1 <= RETRY_MAX cfg ->
     Sent (create_request dst
             (match existing with
              | Some _ => title +:+ " (copy)"
              | None => title
              end) storage parent_id) ∈ tr).
Proof.
  intros Hbranch Hfind. unfold place_page. rewrite (bind_Ok _ _ _ _ _ Hfind).
  set (T := match existing with Some _ => title +:+ " (copy)" | None => title end).
  assert (exists line,
            match existing with
            | Some ex =>
                if String.eqb (ON_TITLE_CONFLICT cfg) "skip" then
                  print ("SKIP (exists)  " +:+ title);;
                  i ← subscript "id" (e_id ex);
                  ret (<[src_id := i]> id_map)
                else if String.eqb (ON_TITLE_CONFLICT cfg) "update" then
                  print ("UPDATE         " +:+ title);;
                  updated ← update_page dst ex storage;
                  i ← subscript "id" (e_id updated);
                  copy_assets fuel src dst src_id (<[src_id := i]> id_map)
                else
                  print ("CREATE(+suffix)" +:+ (title +:+ " (copy)"));;
                  created ← create_page dst (title +:+ " (copy)") storage parent_id;
                  i ← subscript "id" (e_id created);
                  copy_assets fuel src dst src_id (<[src_id := i]> id_map)
            | None =>
                print ("CREATE         " +:+ title);;
                created ← create_page dst title storage parent_id;
                i ← subscript "id" (e_id created);
                copy_assets fuel src dst src_id (<[src_id := i]> id_map)
            end
            = (print line;;
               created ← create_page dst T storage parent_id;
               i ← subscript "id" (e_id created);
               copy_assets fuel src dst src_id (<[src_id := i]> id_map)))
    as [line ->].
  { subst T. destruct existing as [ex|]; [|by eexists].
    destruct Hbranch as [|[Hskip Hupdate]]; [done|].
    apply String.eqb_neq in Hskip, Hupdate. rewrite Hskip, Hupdate. by eexists. }
  match goal with |- context [snd (?m s1)] => set (rest := m) end.
  assert (emits (on_sent (fun req => no_page_write req \/
                            req = create_request dst T storage parent_id)) rest)
    as Hall.
  { subst rest.
    apply emits_bind; [by apply emits_print|intros _].
    apply emits_bind.
    { unfold create_page.
      apply emits_bind; [apply emits_req; by right|intros r; repeat emits_step]. }
    intros created. apply emits_bind; [apply emits_subscript|intros i].
    eapply emits_mono, emits_copy_assets.
    apply no_page_write_on_sent. by left. }
  destruct (Hall s1) as (tr & Htr & Hforall). exists tr. split; [done|]. split.
  - intros req Hin. rewrite Forall_forall in Hforall. by apply (Hforall _ Hin).
  - intros Hn.
    assert (sends (Sent (create_request dst T storage parent_id)) rest) as Hsends.
    { subst rest. apply sends_after_print.
      apply sends_bind; [by apply create_page_sends|intros created].
      eapply emits_any. repeat first [apply emits_copy_assets | emits_step]. }
    destruct (Hsends s1) as (tr' & Htr' & Hin).
    rewrite Htr in Htr'. by apply app_inv_head in Htr' as ->.
Qed.

(** ** The whole run *)

(** The first line [run_copy] prints. *)
Definition reading_line : string :=
  "Reading pages from space '" +:+ SRC_SPACE_KEY cfg +:+ "' at "
  +:+ SRC_BASE_URL cfg +:+ " ...".

(** [s] after that line is printed. *)
Definition announced (s : state) : state :=
  {| world := world s; trace := trace s ++ [Printed reading_line] |}.

(** A request that is a GET, or is sent on the session [dst] to a URL under
    the destination base URL. *)
Definition read_or_destination (dst : session) (req : request) : Prop :=
  req_method req = "GET" \/
  (req_sess req = dst /\
   exists path, req_url req = rstrip_slash (DST_BASE_URL cfg) +:+ path).

Lemma run_copy_announces fuel s :
  run_copy fuel s =
  (pages ← fetch_all_pages_from_space fuel
             (_session (SRC_USERNAME cfg) (SRC_API_TOKEN cfg));
   match pages with
   | [] => print "No pages found. Nothing to do."
   | _ =>
       id_map ← for_each (sort_pages_parent_first pages)
                  (run_copy_page fuel
                     (_session (SRC_USERNAME cfg) (SRC_API_TOKEN cfg))
                     (_session (DST_USERNAME cfg) (DST_API_TOKEN cfg))) ∅;
       print ("✅ Done. Copied pages: " +:+ pretty (size id_map));;
       print ("Destination space: " +:+ DST_SPACE_KEY cfg +:+ " at "
              +:+ DST_BASE_URL cfg)
   end) (announced s).
Proof. reflexivity. Qed.

(** X19. When the listing of the source space is answered with a status in
    400-599, [run_copy] raises [HTTPError] for that answer right after the
    listing: nothing is asked of the destination. *)
Theorem run_copy_raises_on_listing_error
    (fuel : nat) (s s1 : state) (r : response) :
  _req_with_retry (_session (SRC_USERNAME cfg) (SRC_API_TOKEN cfg)) "GET"
    source_listing_url KwNone (announced s) = (Ok r, s1) ->
  400 <= status_code r < 600 ->
  run_copy (S fuel) s = (Raise (HTTPError r), s1).
Proof.
  intros Hreq Hst. rewrite run_copy_announces, fetch_all_pages_unfold.
  unfold mbind at 1, M_bind at 1, bind at 1.
  by rewrite (paged_get_error_status _ _ _ _ _ _ _ _
                source_listing_url_not_empty Hreq Hst).
Qed.

Lemma emits_create_page_to dst title storage parent_id :
  emits (on_sent (read_or_destination dst))
    (create_page dst title storage parent_id).
Proof.
  unfold create_page.
  apply emits_bind; [apply emits_req|intros r; repeat emits_step].
  right. split; [done|]. by eexists.
Qed.

Lemma emits_run_copy_page_to fuel src dst p id_map :
  emits (on_sent (read_or_destination dst)) (run_copy_page fuel src dst p id_map).
Proof.
  assert (forall sess url kw,
            emits (on_sent (read_or_destination dst))
              (_req_with_retry sess "GET" url kw)) as Hget.
  { intros. apply emits_req. by left. }
  assert (forall url kw,
            emits (on_sent (read_or_destination dst))
              (_req_with_retry dst "POST"
                 (rstrip_slash (DST_BASE_URL cfg) +:+ url) kw)) as Hpost.
  { intros. apply emits_req. right. split; [done|]. by eexists. }
  assert (forall src_id m,
            emits (on_sent (read_or_destination dst))
              (copy_assets fuel src dst src_id m)) as Hassets.
  { intros src_id m. unfold copy_assets, copy_labels, copy_attachments.
    repeat first
      [ apply Hget | apply Hpost
      | apply emits_paged_get;
        [intros; by left
        |intros att []; unfold copy_attachment;
         repeat first [apply Hget | apply Hpost | emits_step]]
      | emits_step ]. }
  unfold run_copy_page, place_page, find_dest_page_by_title, update_page.
  repeat first
    [ apply Hget | apply Hassets | apply emits_create_page_to
    | apply emits_scan_candidates
    | apply emits_req; right; split; [done|]; by eexists
    | emits_step ].
Qed.

(** X20. In a whole run every request that is not a GET is sent on the
    destination session to a URL under the destination base URL: the source
    site is only read. *)
Theorem run_copy_only_reads_outside_the_destination (fuel : nat) (s : state) :
  exists tr,
    trace (snd (run_copy fuel s)) = trace s ++ tr /\
    forall req, Sent req ∈ tr ->
      read_or_destination (_session (DST_USERNAME cfg) (DST_API_TOKEN cfg)) req.
Proof.
  assert (emits (on_sent (read_or_destination
                            (_session (DST_USERNAME cfg) (DST_API_TOKEN cfg))))
            (run_copy fuel)) as Hrun.
  { unfold run_copy. apply emits_bind; [by apply emits_print|intros _].
    apply emits_bind.
    { unfold fetch_all_pages_from_space.
      apply emits_paged_get; [intros; by left|intros; apply emits_ret]. }
    intros pages. destruct pages as [|p pages]; [by apply emits_print|].
    apply emits_bind.
    { apply emits_for_each. intros. apply emits_run_copy_page_to. }
    intros id_map. repeat emits_step. }
  destruct (Hrun s) as (tr & Htr & Hall). exists tr. split; [done|].
  intros req Hin. rewrite Forall_forall in Hall. by apply (Hall _ Hin).
Qed.

(** ** Time spent waiting *)

(** The seconds slept along a trace. *)
Fixpoint total_sleep (tr : list event) : Q :=
  match tr with
  | [] => 0
  | Slept q :: tr' => q + total_sleep tr'
  | _ :: tr' => total_sleep tr'
  end.

Lemma total_sleep_backoffs req (n : nat) : forall k,
  (total_sleep (retried req (backoff <$> seqZ k (Z.of_nat n)))
   == RETRY_BASE_WAIT cfg * 2 ^ (k - 1) * (2 ^ Z.of_nat n - 1))%Q.
Proof.
  induction n as [|n IH]; intros k.
  - simpl. ring.
  - rewrite seqZ_next. cbn [fmap list_fmap retried total_sleep].
    rewrite IH. unfold backoff.
    assert (2 ^ (k + 1 - 1) == 2 * 2 ^ (k - 1))%Q as ->.
    { replace (k + 1 - 1) with (1 + (k - 1)) by lia.
      rewrite Qpower_plus by discriminate. reflexivity. }
    assert (2 ^ Z.of_nat (S n) == 2 * 2 ^ Z.of_nat n)%Q as ->.
    { replace (Z.of_nat (S n)) with (1 + Z.of_nat n) by lia.
      rewrite Qpower_plus by discriminate. reflexivity. }
    ring.
Qed.

Lemma total_sleep_snoc_sent tr req :
  total_sleep (tr ++ [Sent req]) = total_sleep tr.
Proof.
  induction tr as [|[?|q|?] tr IH]; simpl; [done|done| |done]. by rewrite IH.
Qed.

(** X24. When every attempt is answered with a status in 500-599, the time
    slept in one call adds up to [RETRY_BASE_WAIT * (2 ** (RETRY_MAX - 1) - 1)]
    seconds: 62 seconds with the shipped values. *)
Theorem server_fault_exhaustion_waits_geometric_total
    (sess : session) (method url : string) (kw : kwargs) (s : state)
    (rs : list response) :
  1 <= RETRY_MAX cfg ->
  (0 <= RETRY_BASE_WAIT cfg)%Q ->
  answers (Z.to_nat (RETRY_MAX cfg)) (world s) (the_request sess method url kw)
    = Response <$> rs ->
  Forall (fun r => 500 <= status_code r < 600) rs ->
  exists tr,
    trace (snd (_req_with_retry sess method url kw s)) = trace s ++ tr /\
    (total_sleep tr == RETRY_BASE_WAIT cfg * (2 ^ (RETRY_MAX cfg - 1) - 1))%Q.
Proof.
  intros Hn Hb Hans Hall.
  destruct (req_server_faults _ _ _ _ _ _ Hn Hb Hans Hall) as (r & _ & ->).
  eexists. split; [reflexivity|]. rewrite total_sleep_snoc_sent.
  replace (RETRY_MAX cfg - 1) with (Z.of_nat (Z.to_nat (RETRY_MAX cfg - 1))) by lia.
  rewrite total_sleep_backoffs. change (2 ^ (1 - 1))%Q with 1%Q. ring.
Qed.

End Engine.

Arguments world {World} s.
Arguments trace {World} s.

(** ** The hierarchy sorter *)

Section Sorter.

Context {A : Type} (key : A -> nat).

Lemma insert_by_perm x l : insert_by key x l ≡ₚ x :: l.
Proof.
  induction l as [|y l IH]; simpl; [done|].
  destruct (key x <=? key y)%nat; [done|].
  rewrite IH. apply Permutation_swap.
Qed.

Lemma sorted_perm l : sorted key l ≡ₚ l.
Proof.
  induction l as [|x l IH]; simpl; [done|].
  by rewrite insert_by_perm, IH.
Qed.

Lemma insert_by_sorted x l :
  StronglySorted (fun a b => (key a <= key b)%nat) l ->
  StronglySorted (fun a b => (key a <= key b)%nat) (insert_by key x l).
Proof.
  induction 1 as [|y l Hl IH Hy]; simpl.
  - repeat constructor.
  - destruct (key x <=? key y)%nat eqn:Hxy.
    + apply Nat.leb_le in Hxy. constructor; [by constructor|].
      constructor; [done|]. eapply Forall_impl; [done|]. simpl. lia.
    + apply Nat.leb_gt in Hxy. constructor; [done|].
      rewrite insert_by_perm. constructor; [lia|done].
Qed.

Lemma sorted_sorted l :
  StronglySorted (fun a b => (key a <= key b)%nat) (sorted key l).
Proof.
  induction l as [|x l IH]; simpl; [constructor|]. by apply insert_by_sorted.
Qed.

(** Insertion only moves [x] past items of a strictly smaller key. *)
Lemma insert_by_filter d x l :
  filter (fun a => key a = d) (insert_by key x l)
  = filter (fun a => key a = d) (x :: l).
Proof.
  induction l as [|y l IH]; simpl; [done|].
  destruct (key x <=? key y)%nat eqn:Hxy; [done|].
  apply Nat.leb_gt in Hxy.
  rewrite filter_cons, IH, !filter_cons.
  repeat case_decide; try done; lia.
Qed.

Lemma sorted_stable d l :
  filter (fun a => key a = d) (sorted key l) = filter (fun a => key a = d) l.
Proof.
  induction l as [|x l IH]; simpl; [done|].
  by rewrite insert_by_filter, !filter_cons, IH.
Qed.

End Sorter.

(** C4. [sort_pages_parent_first] returns a permutation of its input in
    which the depth (the number of ancestors) never decreases, and in which
    the pages of any one depth keep the order they had in the input. *)
Theorem sort_pages_parent_first_stable_by_depth (pages : list entry) :
  sort_pages_parent_first pages ≡ₚ pages /\
  StronglySorted (fun p q => (depth p <= depth q)%nat)
    (sort_pages_parent_first pages) /\
  forall d, filter (fun p => depth p = d) (sort_pages_parent_first pages)
            = filter (fun p => depth p = d) pages.
Proof.
  unfold sort_pages_parent_first. split; [apply sorted_perm|].
  split; [apply sorted_sorted|]. intros d. apply sorted_stable.
Qed.

(** ** Concrete exchanges *)

Definition src_session (c : config) : session :=
  _session (SRC_USERNAME c) (SRC_API_TOKEN c).

Definition dst_session (c : config) : session :=
  _session (DST_USERNAME c) (DST_API_TOKEN c).

(** The shipped configuration with another conflict mode and the two asset
    toggles set. *)
Definition configured (mode : string) (assets : bool) : config :=
  {| SRC_BASE_URL := "https://src.example/wiki/";
     SRC_SPACE_KEY := "DOC";
     SRC_USERNAME := SRC_USERNAME shipped_config;
     SRC_API_TOKEN := SRC_API_TOKEN shipped_config;
     DST_BASE_URL := "https://dst.example/wiki";
     DST_SPACE_KEY := "DOC";
     DST_USERNAME := DST_USERNAME shipped_config;
     DST_API_TOKEN := DST_API_TOKEN shipped_config;
     COPY_ATTACHMENTS := assets;
     COPY_LABELS := assets;
     ON_TITLE_CONFLICT := mode;
     PAGE_LIMIT := PAGE_LIMIT shipped_config;
     RETRY_MAX := RETRY_MAX shipped_config;
     RETRY_BASE_WAIT := RETRY_BASE_WAIT shipped_config;
     TIMEOUT_S := TIMEOUT_S shipped_config |}.

Definition page (id title : string) (storage : option string)
    (ancestors : option (list ancestor)) (version : option Z) : entry :=
  {| e_id := Some id; e_title := Some title; e_storage := storage;
     e_ancestors := ancestors; e_version := version;
     e_download := None; e_prefix := None; e_name := None |}.

Definition no_entry : entry :=
  {| e_id := None; e_title := None; e_storage := None; e_ancestors := None;
     e_version := None; e_download := None; e_prefix := None; e_name := None |}.

(** A 200 answer listing [results], with no next page. *)
Definition listing (results : list entry) : attempt :=
  Response {| status_code := 200; retry_after := None;
              json := Some {| d_entry := no_entry; d_results := Some results;
                              d_next := None; d_base := None |};
              content := [] |}.

(** A 200 answer whose body is the page [p]. *)
Definition page_answer (p : entry) : attempt :=
  Response {| status_code := 200; retry_after := None;
              json := Some {| d_entry := p; d_results := None;
                              d_next := None; d_base := None |};
              content := [] |}.

Definition start (w : script) : state script := {| world := w; trace := [] |}.

(** The source pages: a root page and a child of it. *)
Definition home : entry := page "1" "Home" (Some "<p>hi</p>") None (Some 1).

Definition child : entry :=
  page "2" "Child" (Some "<p>more</p>") (Some [ {| anc_id := Some "1" |} ]) (Some 1).

(** Pages of the destination as a lookup with [expand=ancestors] lists them. *)
Definition dest_home : entry := page "900" "Home" None None None.

Definition dest_child : entry :=
  page "901" "Child" None (Some [ {| anc_id := Some "900" |} ]) (Some 3).


(** Two destination pages of one title, at the root and under page 900. *)
Definition notes_at_root : entry := page "910" "Notes" None None None.

Definition notes_under_home : entry :=
  page "911" "Notes" None (Some [ {| anc_id := Some "900" |} ]) None.

(** The lookup [find_dest_page_by_title] sends for [title]. *)
Definition lookup_request (c : config) (title : string) : request :=
  the_request c (dst_session c) "GET" (find_dest_url c title) KwNone.

(** The POST [create_page] sends. *)
Definition post_request (c : config) (body : page_body) : request :=
  the_request c (dst_session c) "POST"
    (rstrip_slash (DST_BASE_URL c) +:+ "/rest/api/content")
    (KwJsonPage body json_headers).

(** The PUT [update_page] sends to overwrite page [id]. *)
Definition put_request (c : config) (id : string) (body : page_body) : request :=
  the_request c (dst_session c) "PUT"
    (rstrip_slash (DST_BASE_URL c) +:+ "/rest/api/content/" +:+ id)
    (KwJsonPage body json_headers).

(** ** The theorems at work, and where the stated claims fail *)

Lemma server_fault_exhaustion_witness :
  fst (_req_with_retry script play float_of_digits shipped_config
         (dst_session shipped_config) "GET" "https://dst.example/wiki" KwNone
         (start (replicate 6 (Response (plain_response 503 None)))))
  = Ok (plain_response 503 None).
Proof.
  destruct (server_fault_exhaustion_returns_last_response
              script play float_of_digits shipped_config
              (dst_session shipped_config) "GET" "https://dst.example/wiki" KwNone
              (start (replicate 6 (Response (plain_response 503 None))))
              (replicate 6 (plain_response 503 None)))
    as (r & Hlast & Hrun).
  - simpl. lia.
  - discriminate.
  - reflexivity.
  - repeat constructor; simpl; lia.
  - rewrite Hrun. simpl in Hlast. injection Hlast as <-. reflexivity.
Defined.

Lemma connection_fault_exhaustion_witness :
  fst (_req_with_retry script play float_of_digits shipped_config
         (dst_session shipped_config) "GET" "https://dst.example/wiki" KwNone
         (start (replicate 5 (Fault "reset") ++ [Fault "timeout"])))
  = Raise (RequestException "timeout").
Proof.
  destruct (connection_fault_exhaustion_raises_last_fault
              script play float_of_digits shipped_config
              (dst_session shipped_config) "GET" "https://dst.example/wiki" KwNone
              (start (replicate 5 (Fault "reset") ++ [Fault "timeout"]))
              (replicate 5 "reset" ++ ["timeout"]))
    as (e & Hlast & Hrun).
  - simpl. lia.
  - discriminate.
  - reflexivity.
  - rewrite Hrun. simpl in Hlast. injection Hlast as <-. reflexivity.
Defined.



Lemma find_dest_matches_on_parent_witness :
  find_dest_page_by_title script play float_of_digits (configured "update" false)
    (dst_session (configured "update" false)) "Notes" None
    (start [listing [notes_under_home; notes_at_root]])
  = (Ok (Some notes_at_root),
     {| world := []; trace := [Sent (lookup_request (configured "update" false) "Notes")] |})
  /\ notes_at_root <> notes_under_home.
Proof.
  split; [reflexivity|].
  apply (find_dest_matches_on_parent script play float_of_digits
           (configured "update" false) (dst_session (configured "update" false))
           "Notes" "Notes" None (Some "900")
           (start [listing [notes_under_home; notes_at_root]])
           (start [listing [notes_under_home; notes_at_root]])
           {| world := []; trace := [Sent (lookup_request (configured "update" false) "Notes")] |}
           {| world := []; trace := [Sent (lookup_request (configured "update" false) "Notes")] |}
           notes_at_root notes_under_home);
    [reflexivity|reflexivity|discriminate].
Defined.

Lemma find_dest_non_2xx_witness :
  find_dest_page_by_title script play float_of_digits (configured "update" false)
    (dst_session (configured "update" false)) "Home" (Some "900")
    (start (replicate 6 (Response (plain_response 503 None))))
  = (Ok None,
     {| world := [];
        trace := retried (lookup_request (configured "update" false) "Home")
                   [2; 4; 8; 16; 32]%Q
                 ++ [Sent (lookup_request (configured "update" false) "Home")] |}).
Proof.
  apply (find_dest_non_2xx_is_no_match script play float_of_digits
           (configured "update" false) (dst_session (configured "update" false))
           "Home" (Some "900")
           (start (replicate 6 (Response (plain_response 503 None))))
           {| world := [];
              trace := retried (lookup_request (configured "update" false) "Home")
                         [2; 4; 8; 16; 32]%Q
                       ++ [Sent (lookup_request (configured "update" false) "Home")] |}
           (plain_response 503 None));
    [reflexivity|simpl; lia].
Defined.

Lemma orphaned_parent_witness :
  resolve_parent ∅ (direct_parent child) = None /\
  run_copy_page script play float_of_digits (configured "update" false) 4
    (src_session (configured "update" false)) (dst_session (configured "update" false))
    child ∅ (start [listing []; page_answer (page "950" "Child" None None (Some 1))])
  = run_copy_page script play float_of_digits (configured "update" false) 4
      (src_session (configured "update" false)) (dst_session (configured "update" false))
      (as_root child) ∅
      (start [listing []; page_answer (page "950" "Child" None None (Some 1))]).
Proof.
  destruct (orphaned_parent_falls_back_to_root script play float_of_digits
              (configured "update" false) 4
              (src_session (configured "update" false))
              (dst_session (configured "update" false))
              child ∅ "1"
              (start [listing []; page_answer (page "950" "Child" None None (Some 1))]))
    as (Hres & _ & Hrun); [reflexivity|reflexivity|].
  split; [exact Hres|exact Hrun].
Defined.



(** C3 as stated fails: the update of a page that has a resolved destination
    parent sends no parent. *)
Lemma update_sends_no_parent :
  resolve_parent {["1" := "900"]} (direct_parent child) = Some "900" /\
  run_copy_page script play float_of_digits (configured "update" false) 4
    (src_session (configured "update" false)) (dst_session (configured "update" false))
    child {["1" := "900"]} (start [listing [dest_child]; page_answer dest_child])
  = (Ok (<["2" := "901"]> {["1" := "900"]}),
     {| world := [];
        trace :=
          [Sent (lookup_request (configured "update" false) "Child");
           Printed "UPDATE         Child";
           Sent (put_request (configured "update" false) "901"
                   {| b_id := Some "901"; b_type := "page"; b_title := "Child";
                      b_space_key := "DOC"; b_storage_value := "<p>more</p>";
                      b_storage_representation := "storage";
                      b_ancestors := None; b_version_number := Some 4 |})] |}).
Proof. split; reflexivity. Qed.

Lemma assets_copied_witness :
  exists tr,
    trace (snd (place_page script play float_of_digits (configured "update" true) 4
                  (src_session (configured "update" true))
                  (dst_session (configured "update" true))
                  "1" "Home" "<p>hi</p>" None ∅
                  (start [listing [dest_home]; page_answer dest_home;
                          Response (plain_response 404 None); listing []])))
    = [Sent (lookup_request (configured "update" true) "Home")] ++ tr /\
    Sent (the_request (configured "update" true) (src_session (configured "update" true))
            "GET" "https://src.example/wiki/rest/api/content/1/label" KwNone) ∈ tr /\
    Sent (the_request (configured "update" true) (src_session (configured "update" true))
            "GET" "https://src.example/wiki/rest/api/content/1/child/attachment?limit=200"
            KwNone) ∈ tr.
Proof.
  destruct (assets_copied_unless_skipped script play float_of_digits
              (configured "update" true) 4
              (src_session (configured "update" true))
              (dst_session (configured "update" true))
              "1" "Home" "<p>hi</p>" None ∅ {["1" := "900"]}
              (start [listing [dest_home]; page_answer dest_home;
                      Response (plain_response 404 None); listing []])
              {| world := [page_answer dest_home; Response (plain_response 404 None);
                           listing []];
                 trace := [Sent (lookup_request (configured "update" true) "Home")] |}
              (snd (place_page script play float_of_digits (configured "update" true) 4
                      (src_session (configured "update" true))
                      (dst_session (configured "update" true))
                      "1" "Home" "<p>hi</p>" None ∅
                      (start [listing [dest_home]; page_answer dest_home;
                              Response (plain_response 404 None); listing []])))
              (Some dest_home))
    as (tr & Htr & _ & Hassets); [simpl; lia|reflexivity|reflexivity|].
  rewrite bool_decide_eq_false_2 in Hassets by (intros [_ Hmode]; discriminate Hmode).
  destruct Hassets as [Hlabels Hatts].
  exists tr. split; [exact Htr|]. split; [exact (Hlabels eq_refl)|exact (Hatts eq_refl)].
Defined.

(** C1 as stated fails: in skip mode a page found at the destination gets its
    id registered and nothing else happens, with both toggles on. *)
Lemma skip_branch_copies_no_assets :
  COPY_LABELS (configured "skip" true) = true /\
  COPY_ATTACHMENTS (configured "skip" true) = true /\
  run_copy_page script play float_of_digits (configured "skip" true) 4
    (src_session (configured "skip" true)) (dst_session (configured "skip" true))
    home ∅ (start [listing [dest_home]])
  = (Ok {["1" := "900"]},
     {| world := [];
        trace := [Sent (lookup_request (configured "skip" true) "Home");
                  Printed "SKIP (exists)  Home"] |}).
Proof. repeat split; reflexivity. Qed.

(** A first run on an empty destination: the child is listed before its
    parent, the parent is created first and the child is created under the
    id the destination gave the parent. *)
Example first_run_creates_parent_then_child :
  run_copy script play float_of_digits (configured "update" false) 4
    (start [listing [child; home];
            listing []; page_answer (page "900" "Home" None None (Some 1));
            listing []; page_answer (page "901" "Child" None None (Some 1))])
  = (Ok tt,
     {| world := [];
        trace :=
          [Printed "Reading pages from space 'DOC' at https://src.example/wiki/ ...";
           Sent (the_request (configured "update" false)
                   (src_session (configured "update" false)) "GET"
                   ("https://src.example/wiki/rest/api/content?type=page&spaceKey=DOC"
                    +:+ "&expand=body.storage,ancestors,version&limit=200")
                   KwNone);
           Sent (lookup_request (configured "update" false) "Home");
           Printed "CREATE         Home";
           Sent (post_request (configured "update" false)
                   (create_body (configured "update" false) "Home" "<p>hi</p>" None));
           Sent (lookup_request (configured "update" false) "Child");
           Printed "CREATE         Child";
           Sent (post_request (configured "update" false)
                   (create_body (configured "update" false) "Child" "<p>more</p>"
                      (Some "900")));
           Printed "✅ Done. Copied pages: 2";
           Printed "Destination space: DOC at https://dst.example/wiki"] |}).
Proof. reflexivity. Qed.

(** * Further properties, outside the engine *)

Arguments announced {World} cfg s.

(** ** Ordering *)

Lemma sorted_of_sorted {A} (key : A -> nat) (l : list A) :
  StronglySorted (fun a b => (key a <= key b)%nat) l -> sorted key l = l.
Proof.
  induction 1 as [|x l Hl IH Hx]; simpl; [done|]. rewrite IH.
  destruct l as [|y l]; simpl; [done|].
  inversion Hx as [|? ? Hxy _]; subst.
  by replace (key x <=? key y)%nat with true by (symmetry; by apply Nat.leb_le).
Qed.

(** X21. In the sorted list every page of the input that is strictly
    shallower than a page [q] stands before [q], and nowhere after it: a
    parent listed at a smaller depth than its child is processed first. *)
Theorem shallower_pages_are_placed_first
    (pages before after : list entry) (p q : entry) :
  sort_pages_parent_first pages = before ++ q :: after ->
  p ∈ pages ->
  (depth p < depth q)%nat ->
  p ∈ before /\ p ∉ q :: after.
Proof.
  intros Hsort Hin Hlt.
  pose proof (sorted_sorted depth pages) as Hsorted.
  fold (sort_pages_parent_first pages) in Hsorted. rewrite Hsort in Hsorted.
  apply StronglySorted_app_1_r in Hsorted.
  inversion Hsorted as [|? ? _ Hq]; subst. rewrite Forall_forall in Hq.
  assert (p ∉ q :: after) as Hnot.
  { intros [->|Hafter]%elem_of_cons; [lia|]. specialize (Hq _ Hafter). lia. }
  split; [|done].
  assert (p ∈ sort_pages_parent_first pages) as Hp.
  { unfold sort_pages_parent_first. by rewrite sorted_perm. }
  rewrite Hsort in Hp. apply elem_of_app in Hp as [|]; done.
Qed.

(** X22. A list already in order of depth is returned unchanged, so sorting
    twice is sorting once. *)
Theorem sorting_ordered_pages_changes_nothing (pages : list entry) :
  (StronglySorted (fun p q => (depth p <= depth q)%nat) pages ->
   sort_pages_parent_first pages = pages) /\
  sort_pages_parent_first (sort_pages_parent_first pages)
  = sort_pages_parent_first pages.
Proof.
  unfold sort_pages_parent_first. split; [apply sorted_of_sorted|].
  apply sorted_of_sorted, sorted_sorted.
Qed.

(** ** Base URLs *)

Lemma rstrip_slash_app_slash (s : string) :
  rstrip_slash (s +:+ "/") = rstrip_slash s.
Proof. induction s as [|c s IH]; simpl; [done|]. by rewrite IH. Qed.

Lemma length_rstrip_slash (s : string) :
  (String.length (rstrip_slash s) <= String.length s)%nat.
Proof.
  induction s as [|c s IH]; simpl; [done|].
  destruct (Ascii.eqb c "/" && String.eqb (rstrip_slash s) ""); simpl; lia.
Qed.

Lemma rstrip_slash_idemp (s : string) :
  rstrip_slash (rstrip_slash s) = rstrip_slash s.
Proof.
  induction s as [|c s IH]; simpl; [done|].
  destruct (Ascii.eqb c "/" && String.eqb (rstrip_slash s) "") eqn:Hc; [done|].
  simpl. rewrite IH. by rewrite Hc.
Qed.

Lemma length_app_slash (t : string) :
  String.length (t +:+ "/") = S (String.length t).
Proof. induction t as [|c t IH]; simpl; [done|]. by rewrite IH. Qed.

(** X23. A slash at the end of a base URL changes no label or attachment
    URL, and the base the URLs are built on never ends with a slash. *)
Theorem base_url_trailing_slashes_are_dropped (base id : string) :
  labels_url (base +:+ "/") id = labels_url base id /\
  attachments_url (base +:+ "/") id = attachments_url base id /\
  forall t, rstrip_slash base <> t +:+ "/".
Proof.
  unfold labels_url, attachments_url. rewrite rstrip_slash_app_slash.
  split; [done|]. split; [done|]. intros t Ht.
  pose proof (rstrip_slash_idemp base) as Hid. rewrite Ht in Hid.
  rewrite rstrip_slash_app_slash in Hid.
  pose proof (length_rstrip_slash t) as Hlen. rewrite Hid in Hlen.
  rewrite length_app_slash in Hlen. lia.
Qed.

(** ** More concrete exchanges *)

(** The update mode with the asset toggles off. *)
Definition quiet : config := configured "update" false.

(** The shipped configuration with no attempt allowed. *)
Definition without_attempts : config :=
  {| SRC_BASE_URL := SRC_BASE_URL quiet; SRC_SPACE_KEY := SRC_SPACE_KEY quiet;
     SRC_USERNAME := SRC_USERNAME quiet; SRC_API_TOKEN := SRC_API_TOKEN quiet;
     DST_BASE_URL := DST_BASE_URL quiet; DST_SPACE_KEY := DST_SPACE_KEY quiet;
     DST_USERNAME := DST_USERNAME quiet; DST_API_TOKEN := DST_API_TOKEN quiet;
     COPY_ATTACHMENTS := false; COPY_LABELS := false;
     ON_TITLE_CONFLICT := "update"; PAGE_LIMIT := 200;
     RETRY_MAX := 0; RETRY_BASE_WAIT := 2; TIMEOUT_S := 60 |}.

(** A 200 answer listing [results] and pointing to a next page. *)
Definition listing_with_next (results : list entry) (next base : string)
  : response :=
  {| status_code := 200; retry_after := None;
     json := Some {| d_entry := no_entry; d_results := Some results;
                     d_next := Some next; d_base := Some base |};
     content := [] |}.

(** The response inside [listing results]. *)
Definition listing_response (results : list entry) : response :=
  {| status_code := 200; retry_after := None;
     json := Some {| d_entry := no_entry; d_results := Some results;
                     d_next := None; d_base := None |};
     content := [] |}.

Definition label (prefix name : option string) : entry :=
  {| e_id := None; e_title := None; e_storage := None; e_ancestors := None;
     e_version := None; e_download := None; e_prefix := prefix; e_name := name |}.

Definition attachment (title link : string) : entry :=
  {| e_id := Some "att1"; e_title := Some title; e_storage := None;
     e_ancestors := None; e_version := None; e_download := Some link;
     e_prefix := None; e_name := None |}.

(** A 200 answer carrying [data]. *)
Definition download (data : list Ascii.ascii) : response :=
  {| status_code := 200; retry_after := None; json := None; content := data |}.

Definition get (c : config) (sess : session) (url : string) : request :=
  the_request c sess "GET" url KwNone.

Lemma settled_response_witness :
  _req_with_retry script play float_of_digits quiet (dst_session quiet)
    "GET" "https://dst.example/wiki" KwNone
    (start [Response (plain_response 404 None); Response (plain_response 200 None)])
  = (Ok (plain_response 404 None),
     {| world := [Response (plain_response 200 None)];
        trace := [Sent (get quiet (dst_session quiet) "https://dst.example/wiki")] |}).
Proof.
  apply (settled_response_returned_at_once script play float_of_digits quiet
           (dst_session quiet) "GET" "https://dst.example/wiki" KwNone
           (start [Response (plain_response 404 None);
                   Response (plain_response 200 None)])
           (plain_response 404 None) [Response (plain_response 200 None)]).
  - simpl. lia.
  - reflexivity.
  - split; simpl; lia.
Defined.

Lemma no_attempt_witness :
  _req_with_retry script play float_of_digits without_attempts
    (dst_session quiet) "GET" "https://dst.example/wiki" KwNone
    (start [Response (plain_response 200 None)])
  = (Raise (UnboundLocalError "r"), start [Response (plain_response 200 None)]).
Proof.
  apply (no_attempt_leaves_r_unbound script play float_of_digits without_attempts).
  simpl. lia.
Defined.


Lemma paged_get_witness :
  fetch_all_pages_from_space script play float_of_digits quiet 2 (src_session quiet)
    (start [Response (listing_with_next [home] "/rest/api/content?start=1"
                        "https://src.example/wiki/");
            listing [child]])
  = (Ok [home; child],
     {| world := [];
        trace := [Sent (get quiet (src_session quiet) (source_listing_url quiet));
                  Sent (get quiet (src_session quiet)
                          "https://src.example/wiki/rest/api/content?start=1")] |}).
Proof.
  rewrite fetch_all_pages_unfold.
  rewrite (paged_get_yields_page_then_rest script play float_of_digits quiet 1
             (src_session quiet) (source_listing_url quiet)
             (start [Response (listing_with_next [home] "/rest/api/content?start=1"
                                 "https://src.example/wiki/");
                     listing [child]])
             {| world := [listing [child]];
                trace := [Sent (get quiet (src_session quiet)
                                  (source_listing_url quiet))] |}
             (listing_with_next [home] "/rest/api/content?start=1"
                "https://src.example/wiki/")
             {| d_entry := no_entry; d_results := Some [home];
                d_next := Some "/rest/api/content?start=1";
                d_base := Some "https://src.example/wiki/" |}).
  - reflexivity.
  - reflexivity.
  - reflexivity.
  - simpl. lia.
  - reflexivity.
Defined.

Lemma find_dest_first_match_witness :
  find_dest_page_by_title script play float_of_digits quiet (dst_session quiet)
    "Notes" (Some "900")
    (start [listing [notes_at_root; notes_under_home; notes_under_home]])
  = (Ok (Some notes_under_home),
     {| world := []; trace := [Sent (lookup_request quiet "Notes")] |}).
Proof.
  rewrite (find_dest_returns_first_match script play float_of_digits quiet
             (dst_session quiet) "Notes" (Some "900")
             (start [listing [notes_at_root; notes_under_home; notes_under_home]])
             {| world := []; trace := [Sent (lookup_request quiet "Notes")] |}
             (listing_response [notes_at_root; notes_under_home; notes_under_home])
             {| d_entry := no_entry;
                d_results := Some [notes_at_root; notes_under_home; notes_under_home];
                d_next := None; d_base := None |}).
  - reflexivity.
  - reflexivity.
  - reflexivity.
  - reflexivity.
  - repeat constructor; by eexists.
Defined.

Lemma create_page_server_faults_witness :
  fst (create_page script play float_of_digits quiet (dst_session quiet)
         "Home" "<p>hi</p>" None
         (start (replicate 6 (Response (plain_response 502 None)))))
  = Raise (HTTPError (plain_response 502 None)).
Proof.
  destruct (create_page_raises_after_server_faults script play float_of_digits
              quiet (dst_session quiet) "Home" "<p>hi</p>" None
              (start (replicate 6 (Response (plain_response 502 None))))
              (replicate 6 (plain_response 502 None)))
    as (r & Hlast & Hrun).
  - simpl. lia.
  - discriminate.
  - reflexivity.
  - repeat constructor; simpl; lia.
  - rewrite Hrun. simpl in Hlast. injection Hlast as <-. reflexivity.
Defined.

Lemma update_page_conflict_witness :
  update_page script play float_of_digits quiet (dst_session quiet)
    dest_child "<p>more</p>" (start [Response (plain_response 409 None)])
  = (Raise (HTTPError (plain_response 409 None)),
     {| world := [];
        trace := [Sent (put_request quiet "901"
                          (update_body quiet "901" "Child" 3 "<p>more</p>"))] |}).
Proof.
  apply (update_page_raises_on_client_error script play float_of_digits quiet
           (dst_session quiet) dest_child "<p>more</p>" "901" "Child"
           (start [Response (plain_response 409 None)])
           (plain_response 409 None) []).
  - simpl. lia.
  - reflexivity.
  - reflexivity.
  - reflexivity.
  - simpl. lia.
  - simpl. lia.
Defined.

Lemma copy_labels_witness :
  copy_labels script play float_of_digits (configured "update" true)
    (src_session quiet) (dst_session quiet) "1" "900"
    (start [listing [label None (Some "draft"); label (Some "my") None;
                     label (Some "team") (Some "infra")];
            Response (plain_response 403 None)])
  = (Ok tt,
     {| world := [];
        trace :=
          [Sent (get (configured "update" true) (src_session quiet)
                   "https://src.example/wiki/rest/api/content/1/label");
           Sent (the_request (configured "update" true) (dst_session quiet) "POST"
                   "https://dst.example/wiki/rest/api/content/900/label"
                   (KwJsonLabels [("global", "draft"); ("team", "infra")]
                      json_headers))] |}).
Proof.
  rewrite (copy_labels_posts_named_labels_and_ignores_answer
             script play float_of_digits (configured "update" true)
             (src_session quiet) (dst_session quiet) "1" "900"
             (start [listing [label None (Some "draft"); label (Some "my") None;
                              label (Some "team") (Some "infra")];
                     Response (plain_response 403 None)])
             {| world := [Response (plain_response 403 None)];
                trace := [Sent (get (configured "update" true) (src_session quiet)
                                  "https://src.example/wiki/rest/api/content/1/label")] |}
             (listing_response [label None (Some "draft"); label (Some "my") None;
                                label (Some "team") (Some "infra")])
             {| d_entry := no_entry;
                d_results := Some [label None (Some "draft"); label (Some "my") None;
                                   label (Some "team") (Some "infra")];
                d_next := None; d_base := None |}).
  - reflexivity.
  - reflexivity.
  - reflexivity.
  - reflexivity.
  - reflexivity.
  - discriminate.
Defined.

Lemma copy_attachment_witness :
  copy_attachment script play float_of_digits (configured "update" true)
    (src_session quiet) (dst_session quiet) "900"
    (attachment "a.png" "/download/attachments/1/a.png") tt
    (start [Response (download ["P"; "N"; "G"]%char);
            Response (plain_response 403 None)])
  = (Ok tt,
     {| world := [];
        trace :=
          [Sent (the_request (configured "update" true) (src_session quiet) "GET"
                   "https://src.example/wiki/download/attachments/1/a.png" KwStream);
           Sent (the_request (configured "update" true) (dst_session quiet) "POST"
                   "https://dst.example/wiki/rest/api/content/900/child/attachment"
                   (KwFiles "a.png" ["P"; "N"; "G"]%char "application/octet-stream"
                      [("X-Atlassian-Token", "nocheck")]))] |}).
Proof.
  rewrite (copy_attachment_uploads_what_it_downloaded
             script play float_of_digits (configured "update" true)
             (src_session quiet) (dst_session quiet) "900"
             (attachment "a.png" "/download/attachments/1/a.png")
             "/download/attachments/1/a.png"
             (start [Response (download ["P"; "N"; "G"]%char);
                     Response (plain_response 403 None)])
             {| world := [Response (plain_response 403 None)];
                trace := [Sent (the_request (configured "update" true)
                                  (src_session quiet) "GET"
                                  "https://src.example/wiki/download/attachments/1/a.png"
                                  KwStream)] |}
             (download ["P"; "N"; "G"]%char)).
  - reflexivity.
  - reflexivity.
  - discriminate.
  - reflexivity.
Defined.

Lemma copy_attachments_listing_error_witness :
  copy_attachments script play float_of_digits (configured "update" true) 3
    (src_session quiet) (dst_session quiet) "1" "900"
    (start [Response (plain_response 404 None)])
  = (Raise (HTTPError (plain_response 404 None)),
     {| world := [];
        trace := [Sent (get (configured "update" true) (src_session quiet)
                          (attachments_list_url (configured "update" true) "1"))] |}).
Proof.
  apply (copy_attachments_raises_on_listing_error script play float_of_digits
           (configured "update" true) 2 (src_session quiet) (dst_session quiet)
           "1" "900" (start [Response (plain_response 404 None)])).
  - reflexivity.
  - reflexivity.
  - simpl. lia.
Defined.

Lemma run_loop_stops_witness :
  fst (for_each script ([home] ++ child :: [home])
         (run_copy_page script play float_of_digits quiet 4
            (src_session quiet) (dst_session quiet)) ∅
         (start [listing []; page_answer dest_home;
                 listing []; Response (plain_response 400 None);
                 listing [dest_home]; page_answer dest_home]))
  = Raise (HTTPError (plain_response 400 None)).
Proof.
  rewrite (run_loop_stops_at_first_failure script play float_of_digits quiet 4
             (src_session quiet) (dst_session quiet) [home] [home] child
             ∅ {["1" := "900"]}
             (start [listing []; page_answer dest_home;
                     listing []; Response (plain_response 400 None);
                     listing [dest_home]; page_answer dest_home])
             (snd (run_copy_page script play float_of_digits quiet 4
                     (src_session quiet) (dst_session quiet) home ∅
                     (start [listing []; page_answer dest_home;
                             listing []; Response (plain_response 400 None);
                             listing [dest_home]; page_answer dest_home])))
             (snd (for_each script [home; child]
                     (run_copy_page script play float_of_digits quiet 4
                        (src_session quiet) (dst_session quiet)) ∅
                     (start [listing []; page_answer dest_home;
                             listing []; Response (plain_response 400 None);
                             listing [dest_home]; page_answer dest_home])))
             (HTTPError (plain_response 400 None))).
  - reflexivity.
  - reflexivity.
  - reflexivity.
Defined.

Lemma completed_iteration_witness :
  exists src_id dst_id,
    e_id home = Some src_id /\
    ({["1" := "900"]} : gmap string string) = <[src_id := dst_id]> ∅ /\
    (src_id <> "" ->
     resolve_parent {["1" := "900"]} (Some src_id) = Some dst_id).
Proof.
  apply (completed_iteration_registers_the_page script play float_of_digits
           (configured "skip" true) 4
           (src_session quiet) (dst_session quiet) home ∅ {["1" := "900"]}
           (start [listing [dest_home]])
           {| world := [];
              trace := [Sent (lookup_request (configured "skip" true) "Home");
                        Printed "SKIP (exists)  Home"] |}).
  reflexivity.
Defined.

Lemma completed_loop_witness :
  Forall (fun p => is_Some (e_id p)) [home; child] /\
  dom (<["2" := "901"]> ({["1" := "900"]} : gmap string string))
  = dom (∅ : gmap string string) ∪ list_to_set (omap e_id [home; child]).
Proof.
  apply (completed_loop_maps_exactly_the_pages script play float_of_digits
           (configured "skip" true) 4
           (src_session quiet) (dst_session quiet) [home; child] ∅
           (<["2" := "901"]> {["1" := "900"]})
           (start [listing [dest_home]; listing [dest_child]])
           (snd (for_each script [home; child]
                   (run_copy_page script play float_of_digits
                      (configured "skip" true) 4
                      (src_session quiet) (dst_session quiet)) ∅
                   (start [listing [dest_home]; listing [dest_child]])))).
  reflexivity.
Defined.

Lemma create_branches_witness :
  exists tr,
    trace (snd (place_page script play float_of_digits
                  (configured "append-suffix" false) 4
                  (src_session quiet) (dst_session quiet)
                  "1" "Home" "<p>hi</p>" None ∅
                  (start [listing [dest_home];
                          page_answer (page "950" "Home (copy)" None None (Some 1))])))
    = [Sent (lookup_request (configured "append-suffix" false) "Home")] ++ tr /\
    Sent (create_request (configured "append-suffix" false) (dst_session quiet)
            "Home (copy)" "<p>hi</p>" None) ∈ tr.
Proof.
  destruct (create_branches_post_the_page_under_its_title
              script play float_of_digits (configured "append-suffix" false) 4
              (src_session quiet) (dst_session quiet)
              "1" "Home" "<p>hi</p>" None ∅
              (start [listing [dest_home];
                      page_answer (page "950" "Home (copy)" None None (Some 1))])
              {| world := [page_answer (page "950" "Home (copy)" None None (Some 1))];
                 trace := [Sent (lookup_request (configured "append-suffix" false)
                                   "Home")] |}
              (Some dest_home))
    as (tr & Htr & _ & Hsent).
  - right. split; discriminate.
  - reflexivity.
  - exists tr. split; [exact Htr|]. apply Hsent. discriminate.
Defined.

Lemma run_copy_listing_error_witness :
  run_copy script play float_of_digits quiet 1
    (start [Response (plain_response 403 None)])
  = (Raise (HTTPError (plain_response 403 None)),
     {| world := [];
        trace := [Printed (reading_line quiet);
                  Sent (get quiet (src_session quiet) (source_listing_url quiet))] |}).
Proof.
  apply (run_copy_raises_on_listing_error script play float_of_digits quiet 0
           (start [Response (plain_response 403 None)])).
  - reflexivity.
  - simpl. lia.
Defined.

Lemma shallower_pages_witness :
  home ∈ [home] /\ home ∉ [child].
Proof.
  apply (shallower_pages_are_placed_first [child; home] [home] [] home child).
  - reflexivity.
  - apply list_elem_of_further, list_elem_of_here.
  - cbv. lia.
Defined.

Lemma server_fault_total_wait_witness :
  exists tr,
    trace (snd (_req_with_retry script play float_of_digits shipped_config
                  (dst_session quiet) "GET" "https://dst.example/wiki" KwNone
                  (start (replicate 6 (Response (plain_response 503 None))))))
    = [] ++ tr /\
    (total_sleep tr == 62)%Q.
Proof.
  destruct (server_fault_exhaustion_waits_geometric_total
              script play float_of_digits shipped_config
              (dst_session quiet) "GET" "https://dst.example/wiki" KwNone
              (start (replicate 6 (Response (plain_response 503 None))))
              (replicate 6 (plain_response 503 None)))
    as (tr & Htr & Htotal).
  - simpl. lia.
  - discriminate.
  - reflexivity.
  - repeat constructor; simpl; lia.
  - exists tr. split; [exact Htr|]. rewrite Htotal. reflexivity.
Defined.
